(** * The event router of the devtools backend

    A shallow embedding of
    [devtools/projects/ng-devtools-backend/src/lib/client-event-subscribers.ts]:
    the handlers that the backend binds on the message bus, the projection of
    the live directive forest to its serializable form, and the sweep of the
    injector-id registry that follows a snapshot.

    The file's collaborators (hooks, component-tree, angular-check, the state
    serializer, the profiler capture, rxjs) live in other modules.  Those the
    handlers merely call are fields of the record [Host]; the two whose
    behaviour a property rests on (the profiler capture and the debounce
    operator) are modelled from the specification and marked as such. *)

From stdpp Require Import gmap strings list.
From Stdlib Require Import ZArith.

Local Open Scope string_scope.
Local Open Scope list_scope.
Set Warnings "-register-all".

(** ** Live values *)

(** The state reachable from a live instance.  [JObj] is an object (a
    function too) with its own properties; what a lookup finds beyond them,
    through the prototype chain or on a primitive, is the runtime's to say
    (see [inheritedProperty] below). *)
Inductive JsValue : Type :=
| JUndefined
| JNull
| JBool (b : bool)
| JNum (n : Z)
| JStr (s : string)
| JObj (fields : list (string * JsValue)).

(** [!data] *)
Definition falsy (v : JsValue) : bool :=
  match v with
  | JUndefined | JNull => true
  | JBool b => negb b
  | JNum n => Z.eqb n 0
  | JStr s => bool_decide (s = "")
  | JObj _ => false
  end.

Fixpoint assoc (k : string) (l : list (string * JsValue)) : option JsValue :=
  match l with
  | [] => None
  | (k', v) :: r => if bool_decide (k = k') then Some v else assoc k r
  end.

Inductive JsError : Type :=
| TypeError (what : string).

(** A live instance: the identity of the object and its current state. *)
Record LiveInstance : Type := mkInstance {
  inst_ref : nat;
  inst_state : JsValue
}.

(** ** The protocol's data *)

Definition ElementPosition : Type := list nat.

Record DirectivePosition : Type := mkDirectivePosition {
  pos_element : ElementPosition;
  pos_directive : option nat
}.

Record ComponentInstanceType : Type := mkComponent {
  comp_name : string;
  comp_isElement : bool;
  comp_instance : LiveInstance
}.

Record DirectiveInstanceType : Type := mkDirective {
  dir_name : string;
  dir_instance : LiveInstance
}.

(** A node of the live forest ([ComponentTreeNode] of [./interfaces]). *)
Inductive ComponentTreeNode : Type := mkNode {
  element : string;
  component : option ComponentInstanceType;
  directives : list DirectiveInstanceType;
  children : list ComponentTreeNode;
  nativeElement : option nat
}.

Inductive InjectorType : Type := TElement | TEnvironment.

Record SerializedInjector : Type := mkSerializedInjector {
  si_id : nat;
  si_name : string;
  si_type : InjectorType
}.

(** [index: number | number[]] of a serialized provider record; the field may
    be absent. *)
Inductive ProviderIndex : Type :=
| Single (i : nat)
| Multi (indices : list nat).

Record SerializedProviderRecord : Type := mkSerializedProviderRecord {
  sp_token : string;
  sp_index : option ProviderIndex
}.

Record SerializableComponentInstanceType : Type := mkSerComponent {
  sc_name : string;
  sc_isElement : bool;
  sc_id : nat
}.

Record SerializableDirectiveInstanceType : Type := mkSerDirective {
  sd_name : string;
  sd_id : nat
}.

Inductive SerializableComponentTreeNode : Type := mkSerNode {
  s_element : string;
  s_component : option SerializableComponentInstanceType;
  s_directives : list SerializableDirectiveInstanceType;
  s_children : list SerializableComponentTreeNode;
  s_resolutionPath : option (list SerializedInjector)
}.

(** ** The collaborators *)

(** What the file imports and calls without defining.  [hostSt] is the state
    of the inspected application together with the private state of the
    collaborating modules; the injector-id registry ([idToInjector],
    [injectorsSeen]), which this file reads and writes itself, is kept apart
    and handed to the two functions of component-tree that maintain it. *)
Record Host : Type := mkHost {
  hostSt : Type;
  Injector : Type;
  ProviderRecord : Type;
  Token : Type;
  Resolved : Type;
  ProfilerFrame : Type;
  Query : Type;
  DirectivesProperties : Type;
  Descriptor : Type;
  UpdatedStateData : Type;
  (* angular-check *)
  getAngularVersion : hostSt -> option string;
  appIsAngularInDevMode : hostSt -> bool;
  appIsSupportedAngularVersion : hostSt -> bool;
  appIsAngularIvy : hostSt -> bool;
  (* hooks: each method stands for the call through
     [initializeOrGetDirectiveForestHooks()], which may set the hooks up *)
  initializeOrGetDirectiveForestHooks : hostSt -> hostSt;
  indexForest : hostSt -> hostSt;
  getIndexedDirectiveForest : hostSt -> list ComponentTreeNode * hostSt;
  getDirectiveForest : hostSt -> list ComponentTreeNode * hostSt;
  getDirectiveId : LiveInstance -> hostSt -> nat * hostSt;
  enableTimingAPI : hostSt -> hostSt;
  disableTimingAPI : hostSt -> hostSt;
  (* component-tree *)
  hasDiDebugAPIs : hostSt -> bool;
  queryDirectiveForest :
    ElementPosition -> list ComponentTreeNode -> option ComponentTreeNode;
  getLatestComponentState :
    Query -> list ComponentTreeNode -> option DirectivesProperties;
  getInjectorFromElementNode : option nat -> hostSt -> option Injector;
  getInjectorResolutionPath : Injector -> hostSt -> list Injector;
  isElementInjector : Injector -> bool;
  serializeElementInjectorWithId :
    Injector -> hostSt ->
    gmap nat Injector * gset nat ->
    option SerializedInjector * (gmap nat Injector * gset nat);
  serializeEnvironmentInjectorWithId :
    Injector -> hostSt ->
    gmap nat Injector * gset nat ->
    option SerializedInjector * (gmap nat Injector * gset nat);
  getInjectorProviders : Injector -> hostSt -> list ProviderRecord;
  serializeProviderRecord : ProviderRecord -> bool -> SerializedProviderRecord;
  updateState : UpdatedStateData -> hostSt -> hostSt;
  (* the live injector and its provider records *)
  token : ProviderRecord -> Token;
  injectorGet : Injector -> Token -> hostSt -> Resolved;
  (* state-serializer *)
  serializeDirectiveState : JsValue -> list (string * Descriptor);
  (* component-inspector and highlighter *)
  startInspecting : hostSt -> hostSt;
  stopInspecting : hostSt -> hostSt;
  highlightByPosition : ElementPosition -> hostSt -> hostSt;
  unHighlight : hostSt -> hostSt;
  (* hooks/capture: what [stop] makes of the frames of a session *)
  flushFrames : list ProfilerFrame -> ProfilerFrame;
  (* the runtime: what reading a property yields when it is not an own
     property of an object, that is, on a primitive (the length of a string,
     the methods of the wrappers) or through the prototype chain;
     [undefined] when nothing is found *)
  inheritedProperty : JsValue -> string -> JsValue
}.

(** [data[prop]]: reading a property of [undefined] or [null] throws; an own
    property of an object is read from the object; anything else is looked up
    by the runtime. *)
Definition getProp (host : Host) (data : JsValue) (prop : string)
  : JsError + JsValue :=
  match data with
  | JUndefined => inl (TypeError "Cannot read properties of undefined")
  | JNull => inl (TypeError "Cannot read properties of null")
  | JObj fields =>
      inr (match assoc prop fields with
           | Some v => v
           | None => inheritedProperty host data prop
           end)
  | _ => inr (inheritedProperty host data prop)
  end.

(** ** The world the handlers run in *)

(** The callbacks this file hands to [messageBus.on]. *)
Inductive Callback : Type :=
| CbShutdown
| CbGetLatestComponentExplorerView
| CbCheckForAngular
| CbStartProfiling
| CbStopProfiling
| CbSelectedComponent
| CbGetNestedProperties
| CbGetRoutes
| CbUpdateState
| CbEnableTimingAPI
| CbDisableTimingAPI
| CbGetInjectorProviders
| CbLogProvider
| CbInspectorStart
| CbInspectorEnd
| CbCreateHighlightOverlay
| CbRemoveHighlightOverlay.

(** Calls the handlers make into the collaborators and the sweep of the
    registry, in the order they happen. *)
Inductive Action (host : Host) : Type :=
| AIndexForest
| AGetDirectiveId (i : LiveInstance)
| ASerializeInjector (inj : Injector host)
| ASweep
| ASetConsoleReference (node : option ComponentTreeNode) (p : ElementPosition).

Arguments AIndexForest {host}.
Arguments AGetDirectiveId {host} i.
Arguments ASerializeInjector {host} inj.
Arguments ASweep {host}.
Arguments ASetConsoleReference {host} node p.

(** Outbound events with their payloads. *)
Inductive Event (host : Host) : Type :=
| latestComponentExplorerView
    (forest : list SerializableComponentTreeNode)
    (properties : option (DirectivesProperties host))
| ngAvailability (version : string) (devMode ivy : bool)
| sendProfilerChunk (frame : ProfilerFrame host)
| profilerResults (frame : ProfilerFrame host)
| nestedProperties
    (position : DirectivePosition) (props : list (string * Descriptor host))
    (propPath : list string)
| updateRouterTree (routes : list unit)
| latestInjectorProviders
    (injector : SerializedInjector) (records : list SerializedProviderRecord)
| componentTreeDirty
| highlightComponent (id : nat)
| removeComponentHighlight
| selectComponent (id : nat).

Arguments latestComponentExplorerView {host} forest properties.
Arguments ngAvailability {host} version devMode ivy.
Arguments sendProfilerChunk {host} frame.
Arguments profilerResults {host} frame.
Arguments nestedProperties {host} position props propPath.
Arguments updateRouterTree {host} routes.
Arguments latestInjectorProviders {host} injector records.
Arguments componentTreeDirty {host}.
Arguments highlightComponent {host} id.
Arguments removeComponentHighlight {host}.
Arguments selectComponent {host} id.

(** What the handlers write on the console. *)
Inductive ConsoleEntry (host : Host) : Type :=
| ConsoleGroup (label : string) (colour : string)
| ConsoleLogInjector (inj : Injector host)
| ConsoleLogProvider (provider : option (ProviderRecord host))
| ConsoleLogProviders (providers : list (option (ProviderRecord host)))
| ConsoleLogValue (value : Resolved host)
| ConsoleError (propPath : list string) (node : ComponentTreeNode)
| ConsoleGroupEnd.

Arguments ConsoleGroup {host} label colour.
Arguments ConsoleLogInjector {host} inj.
Arguments ConsoleLogProvider {host} provider.
Arguments ConsoleLogProviders {host} providers.
Arguments ConsoleLogValue {host} value.
Arguments ConsoleError {host} propPath node.
Arguments ConsoleGroupEnd {host}.

(** The callback [startProfilingCallback] passes to the capture. *)
Inductive FrameCallback : Type :=
| EmitProfilerChunk.

(** Modelled from the spec: the profiler capture of [./hooks/capture], whose
    [start] and [stop] are imported here.  Section 4.5: Idle, Recording and
    back; while recording every frame goes to the callback at once and is
    kept for the aggregate that [stop] returns. *)
Inductive CaptureState (host : Host) : Type :=
| Idle
| Recording (onFrame : FrameCallback) (seen : list (ProfilerFrame host)).

Arguments Idle {host}.
Arguments Recording {host} onFrame seen.

Record World (host : Host) : Type := mkWorld {
  hooks : hostSt host;
  idToInjector : gmap nat (Injector host);
  injectorsSeen : gset nat;
  listeners : list (string * Callback);
  destroyed : bool;
  changeDetectionDebounce : option Z;
  capture : CaptureState host;
  timeouts : list (Z * Callback);
  emitted : list (Event host);
  console : list (ConsoleEntry host);
  trace : list (Action host)
}.

Arguments mkWorld {host}.
Arguments hooks {host} w.
Arguments idToInjector {host} w.
Arguments injectorsSeen {host} w.
Arguments listeners {host} w.
Arguments destroyed {host} w.
Arguments changeDetectionDebounce {host} w.
Arguments capture {host} w.
Arguments timeouts {host} w.
Arguments emitted {host} w.
Arguments console {host} w.
Arguments trace {host} w.

(** How a handler ends. *)
Inductive Completion : Type :=
| Normal
| Throws (e : JsError).

Section Handlers.

Variable host : Host.

Local Abbreviation World := (World host).
Local Abbreviation Injector := (Injector host).

Definition setHooks (h : hostSt host) (w : World) : World :=
  mkWorld h (idToInjector w) (injectorsSeen w) (listeners w) (destroyed w)
    (changeDetectionDebounce w) (capture w) (timeouts w) (emitted w)
    (console w) (trace w).

Definition setRegistry (m : gmap nat Injector) (s : gset nat) (w : World)
  : World :=
  mkWorld (hooks w) m s (listeners w) (destroyed w)
    (changeDetectionDebounce w) (capture w) (timeouts w) (emitted w)
    (console w) (trace w).

Definition setCapture (c : CaptureState host) (w : World) : World :=
  mkWorld (hooks w) (idToInjector w) (injectorsSeen w) (listeners w)
    (destroyed w) (changeDetectionDebounce w) c (timeouts w) (emitted w)
    (console w) (trace w).

(** [messageBus.on(topic, cb)] *)
Definition on (topic : string) (cb : Callback) (w : World) : World :=
  mkWorld (hooks w) (idToInjector w) (injectorsSeen w)
    (listeners w ++ [(topic, cb)]) (destroyed w)
    (changeDetectionDebounce w) (capture w) (timeouts w) (emitted w)
    (console w) (trace w).

(** [messageBus.destroy()] *)
Definition destroy (w : World) : World :=
  mkWorld (hooks w) (idToInjector w) (injectorsSeen w) [] true
    (changeDetectionDebounce w) (capture w) (timeouts w) (emitted w)
    (console w) (trace w).

(** [messageBus.emit(...)] *)
Definition emit (e : Event host) (w : World) : World :=
  mkWorld (hooks w) (idToInjector w) (injectorsSeen w) (listeners w)
    (destroyed w) (changeDetectionDebounce w) (capture w) (timeouts w)
    (emitted w ++ [e]) (console w) (trace w).

Definition consoleWrite (c : ConsoleEntry host) (w : World) : World :=
  mkWorld (hooks w) (idToInjector w) (injectorsSeen w) (listeners w)
    (destroyed w) (changeDetectionDebounce w) (capture w) (timeouts w)
    (emitted w) (console w ++ [c]) (trace w).

Definition record (a : Action host) (w : World) : World :=
  mkWorld (hooks w) (idToInjector w) (injectorsSeen w) (listeners w)
    (destroyed w) (changeDetectionDebounce w) (capture w) (timeouts w)
    (emitted w) (console w) (trace w ++ [a]).

(** [setTimeout(cb, delay)] *)
Definition setTimeout (cb : Callback) (delay : Z) (w : World) : World :=
  mkWorld (hooks w) (idToInjector w) (injectorsSeen w) (listeners w)
    (destroyed w) (changeDetectionDebounce w) (capture w)
    (timeouts w ++ [(delay, cb)]) (emitted w) (console w) (trace w).

(** [.pipe(debounceTime(due)).subscribe(...)]: the subscription is noted with
    its window. *)
Definition subscribeDebounced (due : Z) (w : World) : World :=
  mkWorld (hooks w) (idToInjector w) (injectorsSeen w) (listeners w)
    (destroyed w) (Some due) (capture w) (timeouts w) (emitted w)
    (console w) (trace w).

(** *** Calls into the hooks *)

(** [initializeOrGetDirectiveForestHooks().indexForest()] *)
Definition callIndexForest (w : World) : World :=
  record AIndexForest (setHooks (indexForest host (hooks w)) w).

(** [initializeOrGetDirectiveForestHooks().getDirectiveId(instance)] *)
Definition callGetDirectiveId (i : LiveInstance) (w : World) : nat * World :=
  let '(id, h) := getDirectiveId host i (hooks w) in
  (id, record (AGetDirectiveId i) (setHooks h w)).

(** Lines 249-253: the serializer is picked by the injector's kind. *)
Definition serializeInjectorWithId (injector : Injector) (w : World)
  : option SerializedInjector * World :=
  let ser :=
    if isElementInjector host injector
    then serializeElementInjectorWithId host
    else serializeEnvironmentInjectorWithId host in
  let '(r, (m, s)) :=
    ser injector (hooks w) (idToInjector w, injectorsSeen w) in
  (r, record (ASerializeInjector injector) (setRegistry m s w)).

(** ** [prepareForestForSerialization] *)

(** [node.directives.map(d => ({name, id: getDirectiveId(d.instance)}))] *)
Fixpoint serializeDirectives (ds : list DirectiveInstanceType) (w : World)
  : list SerializableDirectiveInstanceType * World :=
  match ds with
  | [] => ([], w)
  | d :: r =>
      let '(id, w1) := callGetDirectiveId (dir_instance d) w in
      let '(sr, w2) := serializeDirectives r w1 in
      (mkSerDirective (dir_name d) id :: sr, w2)
  end.

(** The inner loop, lines 246-260: injectors that serialize to [null] are
    passed over. *)
Fixpoint serializeResolutionPath (path : list Injector) (w : World)
  : list SerializedInjector * World :=
  match path with
  | [] => ([], w)
  | injector :: r =>
      let '(serializedInjectorWithId, w1) :=
        serializeInjectorWithId injector w in
      let '(sr, w2) := serializeResolutionPath r w1 in
      match serializedInjectorWithId with
      | None => (sr, w2)
      | Some si => (si :: sr, w2)
      end
  end.

(** Lines 236-263 for one node: the resolution path it gets. *)
Definition resolutionPathOf (includeResolutionPath : bool)
  (native : option nat) (w : World)
  : option (list SerializedInjector) * World :=
  if includeResolutionPath then
    match getInjectorFromElementNode host native (hooks w) with
    | None => (Some [], w)
    | Some nodeInjector =>
        let '(p, w1) :=
          serializeResolutionPath
            (getInjectorResolutionPath host nodeInjector (hooks w)) w in
        (Some p, w1)
    end
  else (None, w).

(** [component: node.component ? {...} : null] *)
Definition serializeComponent (c : option ComponentInstanceType) (w : World)
  : option SerializableComponentInstanceType * World :=
  match c with
  | None => (None, w)
  | Some c =>
      let '(id, w1) := callGetDirectiveId (comp_instance c) w in
      (Some (mkSerComponent (comp_name c) (comp_isElement c) id), w1)
  end.

(** The body of the loop over [roots], lines 220-265.  The object literal is
    evaluated in order: component, directives, children; the resolution path
    is added afterwards. *)
Fixpoint serializeNode (includeResolutionPath : bool)
  (node : ComponentTreeNode) (w : World) {struct node}
  : SerializableComponentTreeNode * World :=
  match node with
  | mkNode el comp dirs kids native =>
      let '(sc, w1) := serializeComponent comp w in
      let '(sd, w2) := serializeDirectives dirs w1 in
      let '(sk, w3) :=
        (fix forest (roots : list ComponentTreeNode) (w : World) :=
           match roots with
           | [] => ([], w)
           | n :: r =>
               let '(sn, wa) := serializeNode includeResolutionPath n w in
               let '(sr, wb) := forest r wa in
               (sn :: sr, wb)
           end) kids w2 in
      let '(rp, w4) := resolutionPathOf includeResolutionPath native w3 in
      (mkSerNode el sc sd sk rp, w4)
  end.

Fixpoint prepareForestForSerialization (roots : list ComponentTreeNode)
  (includeResolutionPath : bool) (w : World)
  : list SerializableComponentTreeNode * World :=
  match roots with
  | [] => ([], w)
  | node :: r =>
      let '(sn, wa) := serializeNode includeResolutionPath node w in
      let '(sr, wb) := prepareForestForSerialization r includeResolutionPath wa in
      (sn :: sr, wb)
  end.

(** ** Callback definitions *)

Definition shutdownCallback (w : World) : World := destroy w.

(** Lines 84-88: every key of [idToInjector] that is not in [injectorsSeen]
    is deleted. *)
Definition sweep (seen : gset nat) (m : gmap nat Injector)
  : gmap nat Injector :=
  foldl
    (fun acc injectorId =>
       if bool_decide (injectorId ∈ seen) then acc else delete injectorId acc)
    m (map_to_list m).*1.

(** Lines 83-89: the sweep, then [injectorsSeen.clear()]. *)
Definition cleanupInjectorIdMappings (w : World) : World :=
  record ASweep
    (setRegistry (sweep (injectorsSeen w) (idToInjector w)) ∅ w).

(** Lines 79-93: the forest of the snapshot. *)
Definition snapshotForest (w : World)
  : list SerializableComponentTreeNode * World :=
  if hasDiDebugAPIs host (hooks w) then
    let '(roots, h) := getIndexedDirectiveForest host (hooks w) in
    let '(forest, w1) :=
      prepareForestForSerialization roots true (setHooks h w) in
    (forest, cleanupInjectorIdMappings w1)
  else
    let '(roots, h) := getIndexedDirectiveForest host (hooks w) in
    prepareForestForSerialization roots false (setHooks h w).

Definition getLatestComponentExplorerViewCallback (query : option (Query host))
  (w : World) : World :=
  let w0 := callIndexForest w in
  let '(forest, w1) := snapshotForest w0 in
  match query with
  | None => emit (latestComponentExplorerView forest None) w1
  | Some q =>
      let '(directiveForest, h) := getDirectiveForest host (hooks w1) in
      let w2 := setHooks h w1 in
      match getLatestComponentState host q directiveForest with
      | Some directiveProperties =>
          emit (latestComponentExplorerView forest (Some directiveProperties))
            w2
      | None => w2
      end
  end.

(** Modelled from the spec: [start] of [./hooks/capture].  Section 4.5: Idle
    to Recording with the callback installed; a [start] while recording is
    ignored. *)
Definition startProfiling (onFrame : FrameCallback) (w : World) : World :=
  match capture w with
  | Idle => setCapture (Recording onFrame []) w
  | Recording _ _ => w
  end.

(** Modelled from the spec: [stop] of [./hooks/capture].  Section 4.5:
    Recording to Idle, the callback uninstalled, one aggregate of the frames
    seen since [start]. *)
Definition stopProfiling (w : World) : ProfilerFrame host * World :=
  match capture w with
  | Idle => (flushFrames host [], w)
  | Recording _ seen => (flushFrames host seen, setCapture Idle w)
  end.

(** [(frame) => { messageBus.emit('sendProfilerChunk', [frame]); }] *)
Definition runFrameCallback (cb : FrameCallback) (frame : ProfilerFrame host)
  (w : World) : World :=
  match cb with
  | EmitProfilerChunk => emit (sendProfilerChunk frame) w
  end.

(** Modelled from the spec: the instrumentation finishing a cycle.  Section
    4.5: the frame goes to the installed callback at once; none is delivered
    while Idle. *)
Definition profilerFrame (frame : ProfilerFrame host) (w : World) : World :=
  match capture w with
  | Idle => w
  | Recording cb seen =>
      runFrameCallback cb frame (setCapture (Recording cb (seen ++ [frame])) w)
  end.

Definition startProfilingCallback (w : World) : World :=
  startProfiling EmitProfilerChunk w.

Definition stopProfilingCallback (w : World) : World :=
  let '(result, w1) := stopProfiling w in
  emit (profilerResults result) w1.

Definition selectedComponentCallback (position : ElementPosition) (w : World)
  : World :=
  let '(forest, h) := getIndexedDirectiveForest host (hooks w) in
  let node := queryDirectiveForest host position forest in
  record (ASetConsoleReference node position) (setHooks h w).

(** Lines 141-146: the walk along [propPath].  [propPath] and [node] are kept
    for the console message; [rest] is what is left of the path. *)
Fixpoint walkPropPath (propPath : list string) (node : ComponentTreeNode)
  (rest : list string) (data : JsValue) (w : World)
  : (JsError + JsValue) * World :=
  match rest with
  | [] => (inr data, w)
  | prop :: r =>
      match getProp host data prop with
      | inl e => (inl e, w)
      | inr data' =>
          let w1 :=
            if falsy data' then consoleWrite (ConsoleError propPath node) w
            else w in
          walkPropPath propPath node r data' w1
      end
  end.

Definition getNestedPropertiesCallback (position : DirectivePosition)
  (propPath : list string) (w : World) : Completion * World :=
  let emitEmpty w := emit (nestedProperties position [] propPath) w in
  let '(forest, h) := getIndexedDirectiveForest host (hooks w) in
  let w0 := setHooks h w in
  match queryDirectiveForest host (pos_element position) forest with
  | None => (Normal, emitEmpty w0)
  | Some node =>
      let current :=
        match pos_directive position with
        | None => comp_instance <$> component node
        | Some i => dir_instance <$> directives node !! i
        end in
      match current with
      | None => (Normal, emitEmpty w0)
      | Some instance =>
          match walkPropPath propPath node propPath (inst_state instance) w0
          with
          | (inl e, w1) => (Throws e, w1)
          | (inr data, w1) =>
              (Normal,
               emit (nestedProperties position
                       (serializeDirectiveState host data) propPath) w1)
          end
      end
  end.

(** ** Subscribe helpers *)

Definition getRoutes (w : World) : World := emit (updateRouterTree []) w.

Definition getRoutesCallback (w : World) : World := getRoutes w.

(** [!ngVersion] holds for a version that is absent and for the empty
    string. *)
Definition checkForAngular (w : World) : World :=
  let ngVersion := getAngularVersion host (hooks w) in
  let appIsIvy := appIsAngularIvy host (hooks w) in
  match ngVersion with
  | None => setTimeout CbCheckForAngular 500 w
  | Some version =>
      if bool_decide (version = "") then setTimeout CbCheckForAngular 500 w
      else
        let w1 :=
          if appIsIvy && appIsAngularInDevMode host (hooks w)
             && appIsSupportedAngularVersion host (hooks w)
          then setHooks (initializeOrGetDirectiveForestHooks host (hooks w)) w
          else w in
        emit (ngAvailability version (appIsAngularInDevMode host (hooks w1))
                appIsIvy) w1
  end.

Definition checkForAngularCallback (w : World) : World := checkForAngular w.

Definition setupInspector (w : World) : World :=
  on "removeHighlightOverlay" CbRemoveHighlightOverlay
    (on "createHighlightOverlay" CbCreateHighlightOverlay
       (on "inspectorEnd" CbInspectorEnd
          (on "inspectorStart" CbInspectorStart w))).

Definition getInjectorProvidersCallback (injector : SerializedInjector)
  (w : World) : World :=
  match idToInjector w !! si_id injector with
  | None => w
  | Some live =>
      let providerRecords := getInjectorProviders host live (hooks w) in
      let serializedProviderRecords :=
        match si_type injector with
        | TEnvironment =>
            map (fun providerRecord =>
                   serializeProviderRecord host providerRecord true)
              providerRecords
        | TElement =>
            map (fun providerRecord =>
                   serializeProviderRecord host providerRecord false)
              providerRecords
        end in
      emit (latestInjectorProviders injector serializedProviderRecords) w
  end.

Definition groupColour (t : InjectorType) : string :=
  match t with
  | TElement => "#a7d5a9"
  | TEnvironment => "#f05057"
  end.

Definition logProvider (serializedInjector : SerializedInjector)
  (serializedProvider : SerializedProviderRecord) (w : World)
  : Completion * World :=
  match idToInjector w !! si_id serializedInjector with
  | None => (Normal, w)
  | Some injector =>
      let providerRecords := getInjectorProviders host injector (hooks w) in
      let w1 :=
        consoleWrite
          (ConsoleGroup (si_name serializedInjector)
             (groupColour (si_type serializedInjector))) w in
      let w2 := consoleWrite (ConsoleLogInjector injector) w1 in
      match sp_index serializedProvider with
      | Some (Single index) =>
          let provider := providerRecords !! index in
          let w3 := consoleWrite (ConsoleLogProvider provider) w2 in
          match provider with
          | None =>
              (Throws (TypeError "Cannot read properties of undefined"), w3)
          | Some p =>
              let w4 :=
                consoleWrite
                  (ConsoleLogValue
                     (injectorGet host injector (token host p) (hooks w3)))
                  w3 in
              (Normal, consoleWrite ConsoleGroupEnd w4)
          end
      | Some (Multi indices) =>
          let providers :=
            map (fun index => providerRecords !! index) indices in
          let w3 := consoleWrite (ConsoleLogProviders providers) w2 in
          match providers with
          | Some p :: _ =>
              let w4 :=
                consoleWrite
                  (ConsoleLogValue
                     (injectorGet host injector (token host p) (hooks w3)))
                  w3 in
              (Normal, consoleWrite ConsoleGroupEnd w4)
          | _ =>
              (Throws (TypeError "Cannot read properties of undefined"), w3)
          end
      | None =>
          (Throws (TypeError "Cannot read properties of undefined"), w2)
      end
  end.

(** ** [subscribeToClientEvents] *)

(** The condition of line 48. *)
Definition ready (w : World) : bool :=
  appIsAngularInDevMode host (hooks w)
  && appIsSupportedAngularVersion host (hooks w)
  && appIsAngularIvy host (hooks w).

Definition subscribeToClientEvents (w : World) : World :=
  let w := on "shutdown" CbShutdown w in
  let w :=
    on "getLatestComponentExplorerView" CbGetLatestComponentExplorerView w in
  let w := on "queryNgAvailability" CbCheckForAngular w in
  let w := on "startProfiling" CbStartProfiling w in
  let w := on "stopProfiling" CbStopProfiling w in
  let w := on "setSelectedComponent" CbSelectedComponent w in
  let w := on "getNestedProperties" CbGetNestedProperties w in
  let w := on "getRoutes" CbGetRoutes w in
  let w := on "updateState" CbUpdateState w in
  let w := on "enableTimingAPI" CbEnableTimingAPI w in
  let w := on "disableTimingAPI" CbDisableTimingAPI w in
  let w := on "getInjectorProviders" CbGetInjectorProviders w in
  let w := on "logProvider" CbLogProvider w in
  if ready w then
    let w := setupInspector w in
    subscribeDebounced 250
      (setHooks (initializeOrGetDirectiveForestHooks host (hooks w)) w)
  else w.

End Handlers.

(** ** The message bus *)

(** Inbound messages with their arguments. *)
Inductive Message (host : Host) : Type :=
| MsgShutdown
| MsgGetLatestComponentExplorerView (query : option (Query host))
| MsgQueryNgAvailability
| MsgStartProfiling
| MsgStopProfiling
| MsgSetSelectedComponent (position : ElementPosition)
| MsgGetNestedProperties (position : DirectivePosition) (propPath : list string)
| MsgGetRoutes
| MsgUpdateState (updatedStateData : UpdatedStateData host)
| MsgEnableTimingAPI
| MsgDisableTimingAPI
| MsgGetInjectorProviders (injector : SerializedInjector)
| MsgLogProvider
    (injector : SerializedInjector) (provider : SerializedProviderRecord)
| MsgInspectorStart
| MsgInspectorEnd
| MsgCreateHighlightOverlay (position : ElementPosition)
| MsgRemoveHighlightOverlay.

Arguments MsgShutdown {host}.
Arguments MsgGetLatestComponentExplorerView {host} query.
Arguments MsgQueryNgAvailability {host}.
Arguments MsgStartProfiling {host}.
Arguments MsgStopProfiling {host}.
Arguments MsgSetSelectedComponent {host} position.
Arguments MsgGetNestedProperties {host} position propPath.
Arguments MsgGetRoutes {host}.
Arguments MsgUpdateState {host} updatedStateData.
Arguments MsgEnableTimingAPI {host}.
Arguments MsgDisableTimingAPI {host}.
Arguments MsgGetInjectorProviders {host} injector.
Arguments MsgLogProvider {host} injector provider.
Arguments MsgInspectorStart {host}.
Arguments MsgInspectorEnd {host}.
Arguments MsgCreateHighlightOverlay {host} position.
Arguments MsgRemoveHighlightOverlay {host}.

(** What reaches the backend: a message on the bus, or a frame from the
    instrumentation. *)
Inductive Input (host : Host) : Type :=
| Inbound (m : Message host)
| Frame (frame : ProfilerFrame host).

Arguments Inbound {host} m.
Arguments Frame {host} frame.

Section Bus.

Variable host : Host.

Local Abbreviation World := (World host).

Definition topicOf (m : Message host) : string :=
  match m with
  | MsgShutdown => "shutdown"
  | MsgGetLatestComponentExplorerView _ => "getLatestComponentExplorerView"
  | MsgQueryNgAvailability => "queryNgAvailability"
  | MsgStartProfiling => "startProfiling"
  | MsgStopProfiling => "stopProfiling"
  | MsgSetSelectedComponent _ => "setSelectedComponent"
  | MsgGetNestedProperties _ _ => "getNestedProperties"
  | MsgGetRoutes => "getRoutes"
  | MsgUpdateState _ => "updateState"
  | MsgEnableTimingAPI => "enableTimingAPI"
  | MsgDisableTimingAPI => "disableTimingAPI"
  | MsgGetInjectorProviders _ => "getInjectorProviders"
  | MsgLogProvider _ _ => "logProvider"
  | MsgInspectorStart => "inspectorStart"
  | MsgInspectorEnd => "inspectorEnd"
  | MsgCreateHighlightOverlay _ => "createHighlightOverlay"
  | MsgRemoveHighlightOverlay => "removeHighlightOverlay"
  end.

Definition onHooks (f : hostSt host -> hostSt host) (w : World) : World :=
  setHooks host (f (hooks w)) w.

(** A registered callback applied to the arguments of a message. *)
Definition runCallback (cb : Callback) (m : Message host) (w : World)
  : Completion * World :=
  match cb, m with
  | CbShutdown, _ => (Normal, shutdownCallback host w)
  | CbGetLatestComponentExplorerView, MsgGetLatestComponentExplorerView q =>
      (Normal, getLatestComponentExplorerViewCallback host q w)
  | CbCheckForAngular, _ => (Normal, checkForAngularCallback host w)
  | CbStartProfiling, _ => (Normal, startProfilingCallback host w)
  | CbStopProfiling, _ => (Normal, stopProfilingCallback host w)
  | CbSelectedComponent, MsgSetSelectedComponent p =>
      (Normal, selectedComponentCallback host p w)
  | CbGetNestedProperties, MsgGetNestedProperties p path =>
      getNestedPropertiesCallback host p path w
  | CbGetRoutes, _ => (Normal, getRoutesCallback host w)
  | CbUpdateState, MsgUpdateState u => (Normal, onHooks (updateState host u) w)
  | CbEnableTimingAPI, _ => (Normal, onHooks (enableTimingAPI host) w)
  | CbDisableTimingAPI, _ => (Normal, onHooks (disableTimingAPI host) w)
  | CbGetInjectorProviders, MsgGetInjectorProviders i =>
      (Normal, getInjectorProvidersCallback host i w)
  | CbLogProvider, MsgLogProvider i p => logProvider host i p w
  | CbInspectorStart, _ => (Normal, onHooks (startInspecting host) w)
  | CbInspectorEnd, _ => (Normal, onHooks (stopInspecting host) w)
  | CbCreateHighlightOverlay, MsgCreateHighlightOverlay p =>
      (Normal, onHooks (highlightByPosition host p) w)
  | CbRemoveHighlightOverlay, _ => (Normal, onHooks (unHighlight host) w)
  | _, _ => (Normal, w)
  end.

(** The listeners bound to the message's topic run in the order they were
    bound; one that throws ends the delivery. *)
Fixpoint notify (ls : list (string * Callback)) (m : Message host) (w : World)
  : Completion * World :=
  match ls with
  | [] => (Normal, w)
  | (topic, cb) :: r =>
      if bool_decide (topic = topicOf m) then
        match runCallback cb m w with
        | (Normal, w1) => notify r m w1
        | thrown => thrown
        end
      else notify r m w
  end.

Definition deliver (m : Message host) (w : World) : Completion * World :=
  notify (listeners w) m w.

Definition step (i : Input host) (w : World) : World :=
  match i with
  | Inbound m => snd (deliver m w)
  | Frame f => profilerFrame host f w
  end.

Definition run (inputs : list (Input host)) (w : World) : World :=
  foldl (fun w i => step i w) w inputs.

(** The topics that have a listener. *)
Definition boundTopics (w : World) : list string := (listeners w).*1.

End Bus.

(** ** The change notifier *)

(** Modelled from the spec: the operator [debounceTime] of rxjs, which line 56
    applies to [changeDetection$].  Sections 4.6 and 9: a timer with
    reset-or-fire semantics; a signal at [t] arms it for [t + due], replacing
    what was armed; the notification leaves when the armed time is reached
    with no signal before it.  [signals] are the times of the signals in
    increasing order, [armed] the time the timer is set for; the result lists
    the times of the notifications. *)
Fixpoint debounceTime (due : Z) (armed : option Z) (signals : list Z)
  : list Z :=
  match signals with
  | [] =>
      match armed with
      | Some d => [d]
      | None => []
      end
  | t :: r =>
      match armed with
      | Some d =>
          if (d <=? t)%Z then d :: debounceTime due (Some (t + due)%Z) r
          else debounceTime due (Some (t + due)%Z) r
      | None => debounceTime due (Some (t + due)%Z) r
      end
  end.

(** Lines 54-58: the times at which [componentTreeDirty] is emitted for
    change-detection signals at the times [signals], as far as they fall
    within [horizon]. *)
Definition componentTreeDirtyAt {host : Host} (w : World host)
  (signals : list Z) (horizon : Z) : list (Z * Event host) :=
  match changeDetectionDebounce w with
  | Some due =>
      map (fun t => (t, componentTreeDirty))
        (filter (fun t => (t <= horizon)%Z) (debounceTime due None signals))
  | None => []
  end.

(** Consecutive signals less than [due] apart. *)
Fixpoint gapsUnder (due : Z) (signals : list Z) : Prop :=
  match signals with
  | [] => True
  | t :: r =>
      match r with
      | [] => True
      | t' :: _ => (t <= t' < t + due)%Z
      end /\ gapsUnder due r
  end.

(** ** A sample host *)

(** Modelled from the spec: a small inspected application standing in for the
    collaborators that are not part of this file, used to run the handlers on
    concrete inputs.  Injectors follow section 3 (kind, name, providers, the
    parent in the resolution chain); an injector without a name cannot be
    serialized (section 4.3); the id of an injector is its own key and the id
    of an instance its reference; positions are paths of child indices
    (section 4.2). *)
Module Sample.

Inductive SInjector : Type :=
| mkInjector (key : nat) (isElement : bool) (name : option string)
    (providers : list (string * list nat)) (parent : option SInjector).

Definition key (i : SInjector) : nat :=
  match i with mkInjector k _ _ _ _ => k end.

Definition isElement (i : SInjector) : bool :=
  match i with mkInjector _ e _ _ _ => e end.

Definition name (i : SInjector) : option string :=
  match i with mkInjector _ _ n _ _ => n end.

Definition providers (i : SInjector) : list (string * list nat) :=
  match i with mkInjector _ _ _ p _ => p end.

Fixpoint resolutionPath (i : SInjector) : list SInjector :=
  match i with
  | mkInjector _ _ _ _ None => [i]
  | mkInjector _ _ _ _ (Some p) => i :: resolutionPath p
  end.

Record St : Type := mkSt {
  forest : list ComponentTreeNode;
  injectors : list (nat * SInjector);
  diDebugAPIs : bool;
  version : option string;
  devMode : bool;
  supported : bool;
  ivy : bool
}.

Fixpoint injectorOf (native : nat) (l : list (nat * SInjector))
  : option SInjector :=
  match l with
  | [] => None
  | (n, i) :: r => if Nat.eqb n native then Some i else injectorOf native r
  end.

Definition serializeWithId (i : SInjector) (_ : St)
  (reg : gmap nat SInjector * gset nat)
  : option SerializedInjector * (gmap nat SInjector * gset nat) :=
  let reg' := (<[key i := i]> (fst reg), {[key i]} ∪ snd reg) in
  match name i with
  | None => (None, reg')
  | Some n =>
      (Some (mkSerializedInjector (key i) n
               (if isElement i then TElement else TEnvironment)), reg')
  end.

Fixpoint queryForest (position : ElementPosition)
  (nodes : list ComponentTreeNode) (found : option ComponentTreeNode)
  : option ComponentTreeNode :=
  match position with
  | [] => found
  | i :: r =>
      match nodes !! i with
      | None => None
      | Some node => queryForest r (children node) (Some node)
      end
  end.

Definition state (v : JsValue) : list (string * JsValue) :=
  match v with
  | JObj fields => fields
  | _ => []
  end.

(** The sample runtime: a string has its length; nothing else is inherited. *)
Definition inherited (v : JsValue) (prop : string) : JsValue :=
  match v with
  | JStr s => if bool_decide (prop = "length") then JNum (Z.of_nat (String.length s))
              else JUndefined
  | _ => JUndefined
  end.

(** A provider record is a token with the slots it occupies; only the
    environment form may carry a list of them (section 4.4). *)
Definition serializeRecord (p : string * list nat) (environment : bool)
  : SerializedProviderRecord :=
  mkSerializedProviderRecord (fst p)
    (match snd p with
     | [] => None
     | [i] => Some (Single i)
     | i :: _ => if environment then Some (Multi (snd p)) else Some (Single i)
     end).

Definition host : Host := {|
  hostSt := St;
  Injector := SInjector;
  ProviderRecord := string * list nat;
  Token := string;
  Resolved := string;
  ProfilerFrame := nat;
  Query := ElementPosition;
  DirectivesProperties := list string;
  Descriptor := JsValue;
  UpdatedStateData := unit;
  getAngularVersion := version;
  appIsAngularInDevMode := devMode;
  appIsSupportedAngularVersion := supported;
  appIsAngularIvy := ivy;
  initializeOrGetDirectiveForestHooks := fun st => st;
  indexForest := fun st => st;
  getIndexedDirectiveForest := fun st => (forest st, st);
  getDirectiveForest := fun st => (forest st, st);
  getDirectiveId := fun i st => (inst_ref i, st);
  enableTimingAPI := fun st => st;
  disableTimingAPI := fun st => st;
  hasDiDebugAPIs := diDebugAPIs;
  queryDirectiveForest := fun p nodes => queryForest p nodes None;
  getLatestComponentState := fun q nodes =>
    (fun node => dir_name <$> directives node) <$> queryForest q nodes None;
  getInjectorFromElementNode := fun native st =>
    native ≫= fun n => injectorOf n (injectors st);
  getInjectorResolutionPath := fun i _ => resolutionPath i;
  isElementInjector := isElement;
  serializeElementInjectorWithId := serializeWithId;
  serializeEnvironmentInjectorWithId := serializeWithId;
  getInjectorProviders := fun i _ => providers i;
  serializeProviderRecord := serializeRecord;
  updateState := fun _ st => st;
  token := fst;
  injectorGet := fun i t _ => t;
  serializeDirectiveState := state;
  startInspecting := fun st => st;
  stopInspecting := fun st => st;
  highlightByPosition := fun _ st => st;
  unHighlight := fun st => st;
  flushFrames := fun frames => foldr Nat.add 0 frames;
  inheritedProperty := inherited
|}.

Definition world (st : St) : World host :=
  mkWorld (st : hostSt host) ∅ ∅ [] false None Idle [] [] [] [].

(** An application with nothing rendered and none of the readiness
    conditions met. *)
Definition bare : St := mkSt [] [] false None false false false.

Definition rootInjector : SInjector :=
  mkInjector 0 false (Some "R3Injector")
    [("Router", [0]); ("APP_INITIALIZER", [1; 2])] None.

(** An element injector from which no name can be derived. *)
Definition anonymousInjector : SInjector :=
  mkInjector 1 true None [] (Some rootInjector).

Definition appInjector : SInjector :=
  mkInjector 2 true (Some "app-root") [("AppComponent", [0])]
    (Some anonymousInjector).

Definition appInstance : LiveInstance :=
  mkInstance 7 (JObj [("title", JStr "demo"); ("count", JNum 0)]).

Definition appNode : ComponentTreeNode :=
  mkNode "app-root" (Some (mkComponent "AppComponent" false appInstance)) []
    [mkNode "div" None [] [] (Some 11)] (Some 10).

(** A component whose state holds an object. *)
Definition shopInstance : LiveInstance :=
  mkInstance 8
    (JObj [("cart", JObj [("items", JNum 3); ("coupon", JStr "")])]).

Definition shopNode : ComponentTreeNode :=
  mkNode "app-shop" (Some (mkComponent "ShopComponent" false shopInstance))
    [] [] (Some 20).

Definition shop : St :=
  mkSt [shopNode] [] false (Some "17.0.0") true true true.

(** One component over one plain element; the component's element has an
    injector, the inner element has none. *)
Definition app (di : bool) : St :=
  mkSt [appNode] [(10, appInjector)] di (Some "17.0.0") true true true.

End Sample.

(** ** What the properties are stated with *)

Section Vocabulary.

Variable host : Host.

Local Abbreviation World := (World host).

(** An id lookup: a directive id asked of the hooks, or an injector
    serialized with its id. *)
Definition isLookup (a : Action host) : bool :=
  match a with
  | AGetDirectiveId _ | ASerializeInjector _ => true
  | _ => false
  end.

Definition isSweep (a : Action host) : bool :=
  match a with
  | ASweep => true
  | _ => false
  end.

(** The sweep happens once and no id lookup comes before it. *)
Definition sweepsBeforeLookups (t : list (Action host)) : Prop :=
  exists pre post,
    t = pre ++ ASweep :: post
    /\ Forall (fun a => isLookup a = false) pre
    /\ Forall (fun a => isSweep a = false) post.

(** What serialization reads and writes besides the trace: the state of the
    hooks and the injector registry. *)
Definition stateOf (w : World)
  : hostSt host * (gmap nat (Injector host) * gset nat) :=
  (hooks w, (idToInjector w, injectorsSeen w)).

(** The serializer the host provides for an injector of the given kind. *)
Definition serializerOf (injector : Injector host) :=
  if isElementInjector host injector
  then serializeElementInjectorWithId host injector
  else serializeEnvironmentInjectorWithId host injector.

(** The serializable form of a component, its id asked of the hooks. *)
Inductive ComponentAs :
  hostSt host -> option ComponentInstanceType ->
  option SerializableComponentInstanceType -> hostSt host -> Prop :=
| component_null h : ComponentAs h None None h
| component_with_id h c id h' :
    getDirectiveId host (comp_instance c) h = (id, h') ->
    ComponentAs h (Some c)
      (Some (mkSerComponent (comp_name c) (comp_isElement c) id)) h'.

(** The serializable forms of the directives, their ids asked one after
    another. *)
Inductive DirectivesAs :
  hostSt host -> list DirectiveInstanceType ->
  list SerializableDirectiveInstanceType -> hostSt host -> Prop :=
| directives_nil h : DirectivesAs h [] [] h
| directives_cons h d id h1 ds sds h2 :
    getDirectiveId host (dir_instance d) h = (id, h1) ->
    DirectivesAs h1 ds sds h2 ->
    DirectivesAs h (d :: ds) (mkSerDirective (dir_name d) id :: sds) h2.

(** A resolution chain serialized: every injector is handed to the host's
    serializer for its kind, those for which it answers are kept in order,
    those for which it answers [null] are skipped, and the registry is passed
    from one to the next either way. *)
Inductive ChainAs (h : hostSt host) :
  gmap nat (Injector host) * gset nat -> list (Injector host) ->
  list SerializedInjector -> gmap nat (Injector host) * gset nat -> Prop :=
| chain_nil reg : ChainAs h reg [] [] reg
| chain_kept reg injector si reg1 rest sis reg2 :
    serializerOf injector h reg = (Some si, reg1) ->
    ChainAs h reg1 rest sis reg2 ->
    ChainAs h reg (injector :: rest) (si :: sis) reg2
| chain_skipped reg injector reg1 rest sis reg2 :
    serializerOf injector h reg = (None, reg1) ->
    ChainAs h reg1 rest sis reg2 ->
    ChainAs h reg (injector :: rest) sis reg2.

(** The resolution path of a node: empty when its element has no injector,
    and otherwise the serialized chain of that injector. *)
Inductive PathAs :
  hostSt host * (gmap nat (Injector host) * gset nat) -> option nat ->
  option (list SerializedInjector) ->
  hostSt host * (gmap nat (Injector host) * gset nat) -> Prop :=
| path_empty h reg native :
    getInjectorFromElementNode host native h = None ->
    PathAs (h, reg) native (Some []) (h, reg)
| path_chain h reg native nodeInjector sis reg' :
    getInjectorFromElementNode host native h = Some nodeInjector ->
    ChainAs h reg (getInjectorResolutionPath host nodeInjector h) sis reg' ->
    PathAs (h, reg) native (Some sis) (h, reg').

(** A serializable node standing for a live node when resolution paths are
    asked for, between the state serialization finds and the state it
    leaves: the same element; the component and the directives with their
    ids; the children, each standing for its live child in turn; and then
    the resolution path, looked up in the state the children left.  A forest
    is projected root by root. *)
Inductive Projects :
  hostSt host * (gmap nat (Injector host) * gset nat) ->
  ComponentTreeNode -> SerializableComponentTreeNode ->
  hostSt host * (gmap nat (Injector host) * gset nat) -> Prop :=
| projects h0 reg0 h1 h2 st3 st4 el comp dirs kids native sc sd sk rp :
    ComponentAs h0 comp sc h1 ->
    DirectivesAs h1 dirs sd h2 ->
    ForestProjects (h2, reg0) kids sk st3 ->
    PathAs st3 native rp st4 ->
    Projects (h0, reg0) (mkNode el comp dirs kids native)
      (mkSerNode el sc sd sk rp) st4
with ForestProjects :
  hostSt host * (gmap nat (Injector host) * gset nat) ->
  list ComponentTreeNode -> list SerializableComponentTreeNode ->
  hostSt host * (gmap nat (Injector host) * gset nat) -> Prop :=
| forest_nil st : ForestProjects st [] [] st
| forest_cons st0 st1 st2 node nodes s ss :
    Projects st0 node s st1 ->
    ForestProjects st1 nodes ss st2 ->
    ForestProjects st0 (node :: nodes) (s :: ss) st2.

(** No resolution path on the node nor below it. *)
Inductive Pathless : SerializableComponentTreeNode -> Prop :=
| pathless el sc sd sk :
    Forall Pathless sk -> Pathless (mkSerNode el sc sd sk None).

(** The world after a stretch of serialization: nothing was emitted or
    logged, the bus and the capture are as they were, and the trace grew by
    id lookups only. *)
Record Looked (w w' : World) : Prop := mkLooked {
  looked_emitted : emitted w' = emitted w;
  looked_console : console w' = console w;
  looked_listeners : listeners w' = listeners w;
  looked_capture : capture w' = capture w;
  looked_trace :
    exists t, trace w' = trace w ++ t /\ Forall (fun a => isLookup a = true) t
}.

(** The same, with the injector registry untouched as well. *)
Definition Untouched (w w' : World) : Prop :=
  Looked w w'
  /\ idToInjector w' = idToInjector w
  /\ injectorsSeen w' = injectorsSeen w.

(** The roots a snapshot serializes and the world it starts from, once the
    forest has been indexed anew. *)
Definition snapshotRoots (w : World) : list ComponentTreeNode :=
  fst (getIndexedDirectiveForest host (hooks (callIndexForest host w))).

Definition snapshotStart (w : World) : World :=
  setHooks host
    (snd (getIndexedDirectiveForest host (hooks (callIndexForest host w))))
    (callIndexForest host w).

(** The world when the forest of the snapshot has been serialized with
    resolution paths, before the registry is swept. *)
Definition serialized (w : World) : World :=
  snd (prepareForestForSerialization host (snapshotRoots w) true
         (snapshotStart w)).

(** The bindings made whatever the readiness of the application, lines 24-46,
    and those of [setupInspector], lines 191-197. *)
Definition commandBindings : list (string * Callback) :=
  [("shutdown", CbShutdown);
   ("getLatestComponentExplorerView", CbGetLatestComponentExplorerView);
   ("queryNgAvailability", CbCheckForAngular);
   ("startProfiling", CbStartProfiling);
   ("stopProfiling", CbStopProfiling);
   ("setSelectedComponent", CbSelectedComponent);
   ("getNestedProperties", CbGetNestedProperties);
   ("getRoutes", CbGetRoutes);
   ("updateState", CbUpdateState);
   ("enableTimingAPI", CbEnableTimingAPI);
   ("disableTimingAPI", CbDisableTimingAPI);
   ("getInjectorProviders", CbGetInjectorProviders);
   ("logProvider", CbLogProvider)].

Definition inspectorBindings : list (string * Callback) :=
  [("inspectorStart", CbInspectorStart);
   ("inspectorEnd", CbInspectorEnd);
   ("createHighlightOverlay", CbCreateHighlightOverlay);
   ("removeHighlightOverlay", CbRemoveHighlightOverlay)].

(** Only the capability probe and the shutdown are bound. *)
Definition onlyProbeAndShutdown (w : World) : Prop :=
  forall topic,
    topic ∈ boundTopics host w ->
    topic = "queryNgAvailability" \/ topic = "shutdown".

End Vocabulary.

Arguments isLookup {host} a.
Arguments isSweep {host} a.
Arguments sweepsBeforeLookups {host} t.
Arguments stateOf {host} w.
Arguments Looked {host} w w'.
Arguments Untouched {host} w w'.
Arguments onlyProbeAndShutdown {host} w.

(** ** Further vocabulary *)

(** The value the walk of lines 141-146 ends on, apart from what it logs. *)
Fixpoint readPath (host : Host) (rest : list string) (data : JsValue)
  : JsError + JsValue :=
  match rest with
  | [] => inr data
  | prop :: r =>
      match getProp host data prop with
      | inl e => inl e
      | inr data' => readPath host r data'
      end
  end.

(** How many of the values read along the path are falsy. *)
Fixpoint falsyReads (host : Host) (rest : list string) (data : JsValue)
  : nat :=
  match rest with
  | [] => 0
  | prop :: r =>
      match getProp host data prop with
      | inl _ => 0
      | inr data' => (if falsy data' then 1 else 0) + falsyReads host r data'
      end
  end.


(** The instances of a node and of the nodes below it, in the order the
    traversal meets them: the component, the directives, then the children. *)
Fixpoint nodeInstances (node : ComponentTreeNode) : list LiveInstance :=
  match node with
  | mkNode _ comp dirs kids _ =>
      match comp with
      | Some c => [comp_instance c]
      | None => []
      end ++ map dir_instance dirs ++ flat_map nodeInstances kids
  end.

Definition forestInstances (roots : list ComponentTreeNode)
  : list LiveInstance :=
  flat_map nodeInstances roots.

(** What a node and its serializable form have in common: the element, the
    component's name and kind, the directives' names, and the same for the
    children. *)
Inductive Skeleton : Type :=
| Bone (el : string) (comp : option (string * bool)) (dirs : list string)
    (kids : list Skeleton).

Fixpoint skeletonOf (node : ComponentTreeNode) : Skeleton :=
  match node with
  | mkNode el comp dirs kids _ =>
      Bone el ((fun c => (comp_name c, comp_isElement c)) <$> comp)
        (map dir_name dirs) (map skeletonOf kids)
  end.

Fixpoint skeletonOfSerializable (node : SerializableComponentTreeNode)
  : Skeleton :=
  match node with
  | mkSerNode el comp dirs kids _ =>
      Bone el ((fun c => (sc_name c, sc_isElement c)) <$> comp)
        (map sd_name dirs) (map skeletonOfSerializable kids)
  end.

(** The instances whose directive id a trace asks for, in order. *)
Definition directiveLookups {host : Host} (t : list (Action host))
  : list LiveInstance :=
  omap (fun a =>
          match a with
          | AGetDirectiveId i => Some i
          | _ => None
          end) t.

(** The callback that line 24-46 and 191-197 bind to the topic of a
    message. *)
Definition callbackOf {host : Host} (m : Message host) : Callback :=
  match m with
  | MsgShutdown => CbShutdown
  | MsgGetLatestComponentExplorerView _ => CbGetLatestComponentExplorerView
  | MsgQueryNgAvailability => CbCheckForAngular
  | MsgStartProfiling => CbStartProfiling
  | MsgStopProfiling => CbStopProfiling
  | MsgSetSelectedComponent _ => CbSelectedComponent
  | MsgGetNestedProperties _ _ => CbGetNestedProperties
  | MsgGetRoutes => CbGetRoutes
  | MsgUpdateState _ => CbUpdateState
  | MsgEnableTimingAPI => CbEnableTimingAPI
  | MsgDisableTimingAPI => CbDisableTimingAPI
  | MsgGetInjectorProviders _ => CbGetInjectorProviders
  | MsgLogProvider _ _ => CbLogProvider
  | MsgInspectorStart => CbInspectorStart
  | MsgInspectorEnd => CbInspectorEnd
  | MsgCreateHighlightOverlay _ => CbCreateHighlightOverlay
  | MsgRemoveHighlightOverlay => CbRemoveHighlightOverlay
  end.

(** The messages whose handlers [setupInspector] binds. *)
Definition forInspector {host : Host} (m : Message host) : bool :=
  match m with
  | MsgInspectorStart | MsgInspectorEnd
  | MsgCreateHighlightOverlay _ | MsgRemoveHighlightOverlay => true
  | _ => false
  end.

(** The instance a directive position points at within a node, line 135-136. *)
Definition currentOf (position : DirectivePosition) (node : ComponentTreeNode)
  : option LiveInstance :=
  match pos_directive position with
  | None => comp_instance <$> component node
  | Some i => dir_instance <$> directives node !! i
  end.

(** * Properties *)

Lemma ComponentTreeNode_forest_ind (P : ComponentTreeNode -> Prop) :
  (forall el comp dirs kids native,
      Forall P kids -> P (mkNode el comp dirs kids native)) ->
  forall node, P node.
Proof.
  intros step. fix IH 1. intros [el comp dirs kids native].
  apply step. induction kids as [|k kids IHk]; constructor.
  - apply IH.
  - exact IHk.
Qed.

Section Serialization.

Variable host : Host.

Local Abbreviation World := (World host).

Lemma Looked_refl (w : World) : Looked w w.
Proof.
  split; try reflexivity. exists []. by rewrite app_nil_r.
Qed.

Lemma Looked_trans (w1 w2 w3 : World) :
  Looked w1 w2 -> Looked w2 w3 -> Looked w1 w3.
Proof.
  intros [e1 c1 l1 p1 (t1 & Ht1 & F1)] [e2 c2 l2 p2 (t2 & Ht2 & F2)].
  split; try congruence.
  exists (t1 ++ t2). split.
  - by rewrite Ht2, Ht1, app_assoc.
  - by apply Forall_app.
Qed.

Lemma Untouched_refl (w : World) : Untouched w w.
Proof. split; [apply Looked_refl | done]. Qed.

Lemma Untouched_trans (w1 w2 w3 : World) :
  Untouched w1 w2 -> Untouched w2 w3 -> Untouched w1 w3.
Proof.
  intros (L1 & m1 & s1) (L2 & m2 & s2).
  split; [by eapply Looked_trans | split; congruence].
Qed.

Lemma callGetDirectiveId_untouched i (w : World) :
  Untouched w (snd (callGetDirectiveId host i w)).
Proof.
  unfold callGetDirectiveId.
  destruct (getDirectiveId host i (hooks w)) as [id h]. cbn.
  split; [split; try reflexivity | done].
  exists [AGetDirectiveId i]. split; [done | by repeat constructor].
Qed.

Lemma serializeInjectorWithId_looked inj (w : World) :
  Looked w (snd (serializeInjectorWithId host inj w)).
Proof.
  unfold serializeInjectorWithId.
  destruct (isElementInjector host inj).
  - destruct (serializeElementInjectorWithId host inj (hooks w)
                (idToInjector w, injectorsSeen w)) as [r [m s]]. cbn.
    split; try reflexivity.
    exists [ASerializeInjector inj]. split; [done | by repeat constructor].
  - destruct (serializeEnvironmentInjectorWithId host inj (hooks w)
                (idToInjector w, injectorsSeen w)) as [r [m s]]. cbn.
    split; try reflexivity.
    exists [ASerializeInjector inj]. split; [done | by repeat constructor].
Qed.

Lemma serializeComponent_untouched comp (w : World) :
  Untouched w (snd (serializeComponent host comp w)).
Proof.
  destruct comp as [c|]; cbn; [|apply Untouched_refl].
  pose proof (callGetDirectiveId_untouched (comp_instance c) w) as H.
  by destruct (callGetDirectiveId host (comp_instance c) w).
Qed.

Lemma serializeComponent_names comp (w : World) :
  sc_name <$> fst (serializeComponent host comp w) = comp_name <$> comp
  /\ sc_isElement <$> fst (serializeComponent host comp w)
     = comp_isElement <$> comp.
Proof.
  destruct comp as [c|]; cbn; [|done].
  by destruct (callGetDirectiveId host (comp_instance c) w).
Qed.

Lemma serializeDirectives_untouched dirs (w : World) :
  Untouched w (snd (serializeDirectives host dirs w)).
Proof.
  revert w. induction dirs as [|d dirs IH]; intros w; cbn.
  - apply Untouched_refl.
  - pose proof (callGetDirectiveId_untouched (dir_instance d) w) as H.
    destruct (callGetDirectiveId host (dir_instance d) w) as [id w1].
    specialize (IH w1).
    destruct (serializeDirectives host dirs w1) as [sr w2]. cbn in *.
    by eapply Untouched_trans.
Qed.

Lemma serializeDirectives_names dirs (w : World) :
  sd_name <$> fst (serializeDirectives host dirs w) = dir_name <$> dirs.
Proof.
  revert w. induction dirs as [|d dirs IH]; intros w; cbn; [done|].
  destruct (callGetDirectiveId host (dir_instance d) w) as [id w1].
  specialize (IH w1).
  destruct (serializeDirectives host dirs w1) as [sr w2]. cbn in *.
  by rewrite IH.
Qed.

Lemma serializeResolutionPath_looked path (w : World) :
  Looked w (snd (serializeResolutionPath host path w)).
Proof.
  revert w. induction path as [|inj path IH]; intros w; cbn.
  - apply Looked_refl.
  - pose proof (serializeInjectorWithId_looked inj w) as H.
    destruct (serializeInjectorWithId host inj w) as [s w1].
    specialize (IH w1).
    destruct (serializeResolutionPath host path w1) as [sr w2]. cbn in *.
    destruct s; cbn; by eapply Looked_trans.
Qed.

Lemma resolutionPathOf_looked incl native (w : World) :
  Looked w (snd (resolutionPathOf host incl native w)).
Proof.
  unfold resolutionPathOf. destruct incl; [|apply Looked_refl].
  destruct (getInjectorFromElementNode host native (hooks w)) as [inj|];
    [|apply Looked_refl].
  pose proof (serializeResolutionPath_looked
                (getInjectorResolutionPath host inj (hooks w)) w) as H.
  by destruct (serializeResolutionPath host _ w).
Qed.

Lemma resolutionPathOf_off native (w : World) :
  resolutionPathOf host false native w = (None, w).
Proof. reflexivity. Qed.

(** The unfolding of [serializeNode]: its inner loop is
    [prepareForestForSerialization] on the children. *)
Lemma serializeNode_eq incl el comp dirs kids native (w : World) :
  serializeNode host incl (mkNode el comp dirs kids native) w
  = let '(sc, w1) := serializeComponent host comp w in
    let '(sd, w2) := serializeDirectives host dirs w1 in
    let '(sk, w3) := prepareForestForSerialization host kids incl w2 in
    let '(rp, w4) := resolutionPathOf host incl native w3 in
    (mkSerNode el sc sd sk rp, w4).
Proof.
  cbn [serializeNode].
  destruct (serializeComponent host comp w) as [sc w1].
  destruct (serializeDirectives host dirs w1) as [sd w2].
  match goal with
  | |- (let '(_, _) := ?f kids w2 in _) = _ =>
      assert (E : forall l v, f l v = prepareForestForSerialization host l incl v)
  end.
  { induction l as [|n l IHl]; intros v; cbn [prepareForestForSerialization];
      [done|].
    destruct (serializeNode host incl n v) as [sn wa]. by rewrite IHl. }
  by rewrite E.
Qed.

End Serialization.

Section Forest.

Variable host : Host.

Local Abbreviation World := (World host).

Lemma serializeNode_looked incl node :
  forall w : World, Looked w (snd (serializeNode host incl node w)).
Proof.
  induction node as [el comp dirs kids native IH]
    using ComponentTreeNode_forest_ind.
  intros w. rewrite serializeNode_eq.
  pose proof (serializeComponent_untouched host comp w) as [H1 _].
  destruct (serializeComponent host comp w) as [sc w1].
  pose proof (serializeDirectives_untouched host dirs w1) as [H2 _].
  destruct (serializeDirectives host dirs w1) as [sd w2].
  assert (H3 : Looked w2 (snd (prepareForestForSerialization host kids incl w2))).
  { clear H2. generalize w2. clear -IH.
    induction IH as [|n l Hn _ IHl]; intros v; cbn; [apply Looked_refl|].
    specialize (Hn v). destruct (serializeNode host incl n v) as [sn wa].
    specialize (IHl wa).
    destruct (prepareForestForSerialization host l incl wa) as [sr wb].
    by eapply Looked_trans. }
  destruct (prepareForestForSerialization host kids incl w2) as [sk w3].
  pose proof (resolutionPathOf_looked host incl native w3) as H4.
  destruct (resolutionPathOf host incl native w3) as [rp w4]. cbn in *.
  eauto using Looked_trans.
Qed.

Lemma prepareForestForSerialization_looked roots incl :
  forall w : World,
    Looked w (snd (prepareForestForSerialization host roots incl w)).
Proof.
  induction roots as [|n l IHl]; intros w; cbn; [apply Looked_refl|].
  pose proof (serializeNode_looked incl n w) as Hn.
  destruct (serializeNode host incl n w) as [sn wa].
  specialize (IHl wa).
  destruct (prepareForestForSerialization host l incl wa) as [sr wb].
  by eapply Looked_trans.
Qed.

(** Without resolution paths the registry is not touched and no node gets a
    path. *)
Lemma serializeNode_pathless node :
  forall w : World,
    Untouched w (snd (serializeNode host false node w))
    /\ Pathless (fst (serializeNode host false node w)).
Proof.
  induction node as [el comp dirs kids native IH]
    using ComponentTreeNode_forest_ind.
  intros w. rewrite serializeNode_eq.
  pose proof (serializeComponent_untouched host comp w) as H1.
  destruct (serializeComponent host comp w) as [sc w1].
  pose proof (serializeDirectives_untouched host dirs w1) as H2.
  destruct (serializeDirectives host dirs w1) as [sd w2].
  assert (H3 :
    Untouched w2 (snd (prepareForestForSerialization host kids false w2))
    /\ Forall Pathless (fst (prepareForestForSerialization host kids false w2))).
  { clear H2. generalize w2. clear -IH.
    induction IH as [|n l Hn _ IHl]; intros v; cbn;
      [split; [apply Untouched_refl | constructor]|].
    destruct (Hn v) as [U P]. destruct (serializeNode host false n v) as [sn wa].
    destruct (IHl wa) as [U' P'].
    destruct (prepareForestForSerialization host l false wa) as [sr wb].
    cbn in *. split; [by eapply Untouched_trans | by constructor]. }
  destruct (prepareForestForSerialization host kids false w2) as [sk w3].
  rewrite resolutionPathOf_off. cbn in *. destruct H3 as [H3 P].
  split; [eauto using Untouched_trans | by constructor].
Qed.

Lemma prepareForestForSerialization_pathless roots :
  forall w : World,
    Untouched w (snd (prepareForestForSerialization host roots false w))
    /\ Forall Pathless (fst (prepareForestForSerialization host roots false w)).
Proof.
  induction roots as [|n l IHl]; intros w; cbn;
    [split; [apply Untouched_refl | constructor]|].
  destruct (serializeNode_pathless n w) as [U P].
  destruct (serializeNode host false n w) as [sn wa].
  destruct (IHl wa) as [U' P'].
  destruct (prepareForestForSerialization host l false wa) as [sr wb].
  cbn in *. split; [by eapply Untouched_trans | by constructor].
Qed.

Lemma callGetDirectiveId_state i (w : World) :
  (fst (callGetDirectiveId host i w),
   hooks (snd (callGetDirectiveId host i w)))
  = getDirectiveId host i (hooks w)
  /\ idToInjector (snd (callGetDirectiveId host i w)) = idToInjector w
  /\ injectorsSeen (snd (callGetDirectiveId host i w)) = injectorsSeen w.
Proof.
  unfold callGetDirectiveId.
  by destruct (getDirectiveId host i (hooks w)) as [id h].
Qed.

Lemma serializeComponent_as comp (w : World) :
  ComponentAs host (hooks w) comp (fst (serializeComponent host comp w))
    (hooks (snd (serializeComponent host comp w)))
  /\ idToInjector (snd (serializeComponent host comp w)) = idToInjector w
  /\ injectorsSeen (snd (serializeComponent host comp w)) = injectorsSeen w.
Proof.
  destruct comp as [c|]; cbn; [|by split; [constructor|]].
  destruct (callGetDirectiveId_state (comp_instance c) w) as (E & M & S).
  destruct (callGetDirectiveId host (comp_instance c) w) as [id w1].
  cbn in *. split; [|done]. by constructor.
Qed.

Lemma serializeDirectives_as dirs :
  forall w : World,
    DirectivesAs host (hooks w) dirs (fst (serializeDirectives host dirs w))
      (hooks (snd (serializeDirectives host dirs w)))
    /\ idToInjector (snd (serializeDirectives host dirs w)) = idToInjector w
    /\ injectorsSeen (snd (serializeDirectives host dirs w)) = injectorsSeen w.
Proof.
  induction dirs as [|d dirs IH]; intros w; cbn; [by split; [constructor|]|].
  destruct (callGetDirectiveId_state (dir_instance d) w) as (E & M & S).
  destruct (callGetDirectiveId host (dir_instance d) w) as [id w1].
  destruct (IH w1) as (D & M' & S').
  destruct (serializeDirectives host dirs w1) as [sr w2]. cbn in *.
  split; [|split; congruence]. by econstructor.
Qed.

Lemma serializeInjectorWithId_state inj (w : World) :
  (fst (serializeInjectorWithId host inj w),
   (idToInjector (snd (serializeInjectorWithId host inj w)),
    injectorsSeen (snd (serializeInjectorWithId host inj w))))
  = serializerOf host inj (hooks w) (idToInjector w, injectorsSeen w)
  /\ hooks (snd (serializeInjectorWithId host inj w)) = hooks w.
Proof.
  unfold serializeInjectorWithId, serializerOf.
  destruct (isElementInjector host inj).
  - by destruct (serializeElementInjectorWithId host inj (hooks w)
                   (idToInjector w, injectorsSeen w)) as [r [m s]].
  - by destruct (serializeEnvironmentInjectorWithId host inj (hooks w)
                   (idToInjector w, injectorsSeen w)) as [r [m s]].
Qed.

Lemma serializeResolutionPath_as path :
  forall w : World,
    ChainAs host (hooks w) (idToInjector w, injectorsSeen w) path
      (fst (serializeResolutionPath host path w))
      (idToInjector (snd (serializeResolutionPath host path w)),
       injectorsSeen (snd (serializeResolutionPath host path w)))
    /\ hooks (snd (serializeResolutionPath host path w)) = hooks w.
Proof.
  induction path as [|inj path IH]; intros w; cbn; [by split; [constructor|]|].
  destruct (serializeInjectorWithId_state inj w) as (E & H).
  destruct (serializeInjectorWithId host inj w) as [s w1].
  destruct (IH w1) as (C & H').
  destruct (serializeResolutionPath host path w1) as [sr w2]. cbn in *.
  rewrite H in C.
  destruct s as [si|]; cbn; (split; [|congruence]).
  - by eapply chain_kept.
  - by eapply chain_skipped.
Qed.

Lemma resolutionPathOf_as native (w : World) :
  PathAs host (stateOf w) native (fst (resolutionPathOf host true native w))
    (stateOf (snd (resolutionPathOf host true native w))).
Proof.
  unfold resolutionPathOf, stateOf.
  destruct (getInjectorFromElementNode host native (hooks w)) as [inj|] eqn:G;
    [|by constructor].
  destruct (serializeResolutionPath_as
              (getInjectorResolutionPath host inj (hooks w)) w) as (C & H).
  destruct (serializeResolutionPath host _ w) as [p w1]. cbn in *.
  rewrite H. by econstructor.
Qed.

Lemma serializeNode_projects node :
  forall w : World,
    Projects host (stateOf w) node (fst (serializeNode host true node w))
      (stateOf (snd (serializeNode host true node w))).
Proof.
  induction node as [el comp dirs kids native IH]
    using ComponentTreeNode_forest_ind.
  intros w. rewrite serializeNode_eq.
  destruct (serializeComponent_as comp w) as (C & M1 & S1).
  destruct (serializeComponent host comp w) as [sc w1].
  destruct (serializeDirectives_as dirs w1) as (D & M2 & S2).
  destruct (serializeDirectives host dirs w1) as [sd w2].
  assert (K : ForestProjects host (stateOf w2) kids
                (fst (prepareForestForSerialization host kids true w2))
                (stateOf (snd (prepareForestForSerialization host kids true
                                 w2)))).
  { generalize w2. clear -IH.
    induction IH as [|n l Hn _ IHl]; intros v; cbn; [constructor|].
    specialize (Hn v). destruct (serializeNode host true n v) as [sn wa].
    specialize (IHl wa).
    destruct (prepareForestForSerialization host l true wa) as [sr wb].
    by econstructor. }
  destruct (prepareForestForSerialization host kids true w2) as [sk w3].
  pose proof (resolutionPathOf_as native w3) as P.
  destruct (resolutionPathOf host true native w3) as [rp w4]. cbn in *.
  unfold stateOf at 1. econstructor; [exact C | exact D | | exact P].
  unfold stateOf in K at 1. by rewrite M2, S2, M1, S1 in K.
Qed.

Lemma prepareForestForSerialization_forest roots :
  forall w : World,
    ForestProjects host (stateOf w) roots
      (fst (prepareForestForSerialization host roots true w))
      (stateOf (snd (prepareForestForSerialization host roots true w))).
Proof.
  induction roots as [|n l IHl]; intros w; cbn; [constructor|].
  pose proof (serializeNode_projects n w) as Hn.
  destruct (serializeNode host true n w) as [sn wa].
  specialize (IHl wa).
  destruct (prepareForestForSerialization host l true wa) as [sr wb].
  by econstructor.
Qed.

Lemma ForestProjects_length st roots out st' :
  ForestProjects host st roots out st' -> length out = length roots.
Proof.
  revert st out. induction roots as [|n l IH]; intros st out H;
    inversion H; subst; cbn; [done|].
  f_equal. by eapply IH.
Qed.

(** The sweep keeps exactly the mappings whose id was seen. *)
Lemma sweep_lookup_list (seen : gset nat) (ks : list nat) (m : gmap nat (Injector host)) k :
  foldl
    (fun acc injectorId =>
       if bool_decide (injectorId ∈ seen) then acc else delete injectorId acc)
    m ks !! k
  = if bool_decide (k ∈ ks ∧ k ∉ seen) then None else m !! k.
Proof.
  revert m. induction ks as [|a ks IH]; intros m; cbn.
  - rewrite bool_decide_eq_false_2; [done|]. intros [H _]. by inversion H.
  - rewrite IH. destruct (decide (a ∈ seen)) as [Ha|Ha].
    + rewrite (bool_decide_eq_true_2 _ Ha).
      destruct (decide (k ∈ ks ∧ k ∉ seen)) as [Hk|Hk].
      * rewrite !bool_decide_eq_true_2; [done| |done].
        destruct Hk. split; [by constructor | done].
      * rewrite !bool_decide_eq_false_2; [done| |done].
        intros [Hin Hs]. apply Hk. split; [|done].
        apply elem_of_cons in Hin as [->|]; done.
    + rewrite (bool_decide_eq_false_2 _ Ha).
      destruct (decide (k ∈ ks ∧ k ∉ seen)) as [Hk|Hk].
      * rewrite !bool_decide_eq_true_2; [done| |done].
        destruct Hk. split; [by constructor | done].
      * rewrite (bool_decide_eq_false_2 _ Hk).
        destruct (decide (k = a)) as [->|Hne].
        -- rewrite lookup_delete_eq.
           rewrite bool_decide_eq_true_2; [done|].
           split; [by constructor | done].
        -- rewrite lookup_delete_ne by done.
           rewrite bool_decide_eq_false_2; [done|].
           intros [Hin Hs]. apply Hk. split; [|done].
           apply elem_of_cons in Hin as [?|]; done.
Qed.

Lemma sweep_filter (seen : gset nat) (m : gmap nat (Injector host)) :
  sweep host seen m = filter (fun kv => kv.1 ∈ seen) m.
Proof.
  apply map_eq. intros k. unfold sweep. rewrite sweep_lookup_list.
  rewrite map_lookup_filter.
  destruct (m !! k) as [x|] eqn:E; cbn.
  - destruct (decide (k ∈ seen)) as [Hs|Hs].
    + rewrite bool_decide_eq_false_2 by (intros [_ ?]; done).
      by rewrite option_guard_True.
    + rewrite bool_decide_eq_true_2.
      * by rewrite option_guard_False.
      * split; [|done]. apply list_elem_of_fmap. exists (k, x).
        split; [done|]. by apply elem_of_map_to_list.
  - by destruct (bool_decide _).
Qed.

End Forest.

Section Snapshot.

Variable host : Host.

Local Abbreviation World := (World host).

Lemma snapshotForest_emitted (w : World) :
  emitted (snd (snapshotForest host w)) = emitted w.
Proof.
  unfold snapshotForest.
  destruct (hasDiDebugAPIs host (hooks w));
    destruct (getIndexedDirectiveForest host (hooks w)) as [roots h].
  - pose proof (prepareForestForSerialization_looked host roots true
                  (setHooks host h w)) as [E _ _ _ _].
    by destruct (prepareForestForSerialization host roots true _).
  - by pose proof (prepareForestForSerialization_looked host roots false
                     (setHooks host h w)) as [E _ _ _ _].
Qed.

Lemma snapshotForest_with (w : World) :
  hasDiDebugAPIs host (hooks w) = true ->
  snapshotForest host w
  = (fst (prepareForestForSerialization host
            (fst (getIndexedDirectiveForest host (hooks w))) true
            (setHooks host (snd (getIndexedDirectiveForest host (hooks w))) w)),
     cleanupInjectorIdMappings host
       (snd (prepareForestForSerialization host
               (fst (getIndexedDirectiveForest host (hooks w))) true
               (setHooks host (snd (getIndexedDirectiveForest host (hooks w)))
                  w)))).
Proof.
  intros H. unfold snapshotForest. rewrite H.
  destruct (getIndexedDirectiveForest host (hooks w)) as [roots h]. cbn.
  by destruct (prepareForestForSerialization host roots true _).
Qed.

Lemma snapshotForest_without (w : World) :
  hasDiDebugAPIs host (hooks w) = false ->
  snapshotForest host w
  = prepareForestForSerialization host
      (fst (getIndexedDirectiveForest host (hooks w))) false
      (setHooks host (snd (getIndexedDirectiveForest host (hooks w))) w).
Proof.
  intros H. unfold snapshotForest. rewrite H.
  by destruct (getIndexedDirectiveForest host (hooks w)) as [roots h].
Qed.

(** What the handler leaves behind, in terms of the world after the
    snapshot's forest was made. *)
Lemma getLatestComponentExplorerViewCallback_after query (w : World) :
  let w1 := snd (snapshotForest host (callIndexForest host w)) in
  let w' := getLatestComponentExplorerViewCallback host query w in
  trace w' = trace w1
  /\ idToInjector w' = idToInjector w1
  /\ injectorsSeen w' = injectorsSeen w1.
Proof.
  cbn. unfold getLatestComponentExplorerViewCallback.
  destruct (snapshotForest host (callIndexForest host w)) as [forest w1].
  destruct query as [q|]; [|done].
  destruct (getDirectiveForest host (hooks w1)) as [df h].
  by destruct (getLatestComponentState host q df).
Qed.

(** What the handler emits. *)
Lemma getLatestComponentExplorerViewCallback_emitted query (w : World) :
  let w0 := callIndexForest host w in
  let forest := fst (snapshotForest host w0) in
  let w1 := snd (snapshotForest host w0) in
  emitted (getLatestComponentExplorerViewCallback host query w)
  = emitted w ++
    match query with
    | None => [latestComponentExplorerView forest None]
    | Some q =>
        match getLatestComponentState host q
                (fst (getDirectiveForest host (hooks w1))) with
        | Some properties =>
            [latestComponentExplorerView forest (Some properties)]
        | None => []
        end
    end.
Proof.
  cbn zeta. unfold getLatestComponentExplorerViewCallback.
  pose proof (snapshotForest_emitted (callIndexForest host w)) as E.
  destruct (snapshotForest host (callIndexForest host w)) as [forest w1].
  cbn in *. destruct query as [q|]; cbn; [|by rewrite E].
  destruct (getDirectiveForest host (hooks w1)) as [df h]. cbn.
  destruct (getLatestComponentState host q df); cbn; rewrite E; [done|].
  by rewrite app_nil_r.
Qed.

End Snapshot.

(** ** The component explorer view *)

(** C1, as amended: the handler of getLatestComponentExplorerView first has
    the forest indexed anew; with no query it emits exactly one
    latestComponentExplorerView event with payload {forest}; with a query it
    emits exactly one such event with payload {forest, properties} when the
    state of the queried component is found, and no event when it is not. *)
Theorem getLatestComponentExplorerView_emits (host : Host)
  (query : option (Query host)) (w : World host) :
  let w0 := callIndexForest host w in
  let forest := fst (snapshotForest host w0) in
  let w1 := snd (snapshotForest host w0) in
  let w' := getLatestComponentExplorerViewCallback host query w in
  hooks w0 = indexForest host (hooks w)
  /\ (exists t, trace w' = trace w ++ AIndexForest :: t)
  /\ emitted w'
     = emitted w ++
       match query with
       | None => [latestComponentExplorerView forest None]
       | Some q =>
           match getLatestComponentState host q
                   (fst (getDirectiveForest host (hooks w1))) with
           | Some properties =>
               [latestComponentExplorerView forest (Some properties)]
           | None => []
           end
       end.
Proof.
  cbn. split; [done|]. split.
  - destruct (getLatestComponentExplorerViewCallback_after host query w)
      as (-> & _ & _).
    set (w0 := callIndexForest host w).
    assert (exists t, trace (snd (snapshotForest host w0)) = trace w0 ++ t)
      as [t Ht].
    { unfold snapshotForest.
      destruct (hasDiDebugAPIs host (hooks w0));
        destruct (getIndexedDirectiveForest host (hooks w0)) as [roots h].
      - pose proof (prepareForestForSerialization_looked host roots true
                      (setHooks host h w0)) as [_ _ _ _ (t & Ht & _)].
        destruct (prepareForestForSerialization host roots true _) as [f wa].
        cbn in *. exists (t ++ [ASweep]). by rewrite Ht, app_assoc.
      - pose proof (prepareForestForSerialization_looked host roots false
                      (setHooks host h w0)) as [_ _ _ _ (t & Ht & _)].
        exists t. by rewrite Ht. }
    exists t. rewrite Ht. subst w0. cbn. by rewrite <- app_assoc.
  - apply getLatestComponentExplorerViewCallback_emitted.
Qed.

(** C1, the claim as stated fails: on an application with nothing rendered, a
    query for its first root finds no state and the handler emits nothing. *)
Lemma getLatestComponentExplorerView_unanswered_query :
  let w' :=
    getLatestComponentExplorerViewCallback Sample.host (Some [0])
      (Sample.world Sample.bare) in
  emitted w' = []
  /\ ~ (exists forest properties,
          emitted w' = [latestComponentExplorerView forest properties]).
Proof.
  cbn zeta.
  assert (E : emitted
                (getLatestComponentExplorerViewCallback Sample.host (Some [0])
                   (Sample.world Sample.bare)) = []) by reflexivity.
  split; [exact E|]. intros (forest & properties & H).
  rewrite E in H. discriminate H.
Qed.

(** ** The sweep of the injector registry *)

(** C3, as amended: in every snapshot taken while the host exposes the DI
    debug APIs the sweep runs exactly once, after the forest has been
    serialized and so after every id lookup of the snapshot; it removes each
    mapping whose id was not marked seen and then clears the seen-set. *)
Theorem snapshot_sweeps_after_lookups (host : Host)
  (query : option (Query host)) (w : World host) :
  hasDiDebugAPIs host (hooks (callIndexForest host w)) = true ->
  let ws := serialized host w in
  let w' := getLatestComponentExplorerViewCallback host query w in
  (exists lookups,
      trace w' = trace w ++ [AIndexForest] ++ lookups ++ [ASweep]
      /\ Forall (fun a => isLookup a = true) lookups)
  /\ idToInjector w'
     = filter (fun kv => kv.1 ∈ injectorsSeen ws) (idToInjector ws)
  /\ injectorsSeen w' = ∅.
Proof.
  intros Hdi. cbn.
  destruct (getLatestComponentExplorerViewCallback_after host query w)
    as (-> & -> & ->).
  rewrite (snapshotForest_with host _ Hdi). cbn [snd].
  fold (snapshotRoots host w). fold (snapshotStart host w).
  fold (serialized host w).
  pose proof (prepareForestForSerialization_looked host (snapshotRoots host w)
                true (snapshotStart host w)) as [_ _ _ _ (t & Ht & Ft)].
  fold (serialized host w) in Ht.
  split; [|split].
  - exists t. split; [|done]. cbn. rewrite Ht. cbn.
    by rewrite <- !app_assoc.
  - cbn. apply sweep_filter.
  - reflexivity.
Qed.

Lemma snapshot_sweeps_after_lookups_witness :
  let w := Sample.world (Sample.app true) in
  let w' := getLatestComponentExplorerViewCallback Sample.host None w in
  hasDiDebugAPIs Sample.host (hooks (callIndexForest Sample.host w)) = true
  /\ idToInjector w'
     = filter (fun kv => kv.1 ∈ injectorsSeen (serialized Sample.host w))
         (idToInjector (serialized Sample.host w))
  /\ injectorsSeen w' = ∅.
Proof.
  cbn zeta. split; [reflexivity|].
  apply (snapshot_sweeps_after_lookups Sample.host None
           (Sample.world (Sample.app true))).
  reflexivity.
Defined.

(** C3, the claim as stated fails: in a snapshot of the sample application
    the directive id of the component and the ids of three injectors are
    looked up before the sweep. *)
Lemma snapshot_sweep_not_before_lookups :
  ~ sweepsBeforeLookups
      (trace (getLatestComponentExplorerViewCallback Sample.host None
                (Sample.world (Sample.app true)))).
Proof.
  assert (T : trace (getLatestComponentExplorerViewCallback Sample.host None
                       (Sample.world (Sample.app true)))
              = [AIndexForest; AGetDirectiveId Sample.appInstance;
                 @ASerializeInjector Sample.host Sample.appInjector;
                 @ASerializeInjector Sample.host Sample.anonymousInjector;
                 @ASerializeInjector Sample.host Sample.rootInjector; ASweep])
    by reflexivity.
  rewrite T. clear T. intros (pre & post & E & Fpre & _).
  destruct pre as [|a pre]; [discriminate E|].
  apply Forall_cons in Fpre as [_ Fpre].
  destruct pre as [|b pre]; [discriminate E|].
  apply Forall_cons in Fpre as [Fb _].
  cbn [app] in E. injection E as _ <- _.
  discriminate Fb.
Qed.

(** C10: when the host does not expose the DI debug APIs, the snapshot's
    forest carries no resolution path on any node, the registry is not swept,
    and the id mappings and the seen-set are after the handler what they
    were before it. *)
Theorem snapshot_without_di_debug_apis (host : Host)
  (query : option (Query host)) (w : World host) :
  hasDiDebugAPIs host (hooks (callIndexForest host w)) = false ->
  let forest := fst (snapshotForest host (callIndexForest host w)) in
  let w' := getLatestComponentExplorerViewCallback host query w in
  Forall Pathless forest
  /\ (exists properties shown,
         emitted w' = emitted w ++ shown
         /\ (shown = [] \/ shown = [latestComponentExplorerView forest properties]))
  /\ idToInjector w' = idToInjector w
  /\ injectorsSeen w' = injectorsSeen w
  /\ (exists lookups,
         trace w' = trace w ++ [AIndexForest] ++ lookups
         /\ Forall (fun a => isLookup a = true) lookups).
Proof.
  intros Hdi. cbn zeta.
  pose proof (getLatestComponentExplorerViewCallback_emitted host query w)
    as Hem. cbn zeta in Hem.
  destruct (getLatestComponentExplorerViewCallback_after host query w)
    as (-> & -> & ->).
  rewrite (snapshotForest_without host _ Hdi) in *.
  fold (snapshotRoots host w) in *. fold (snapshotStart host w) in *.
  destruct (prepareForestForSerialization_pathless host (snapshotRoots host w)
              (snapshotStart host w)) as [[L [Hm Hs]] P].
  split; [done|]. split; [|split; [|split]].
  - destruct query as [q|].
    + destruct (getLatestComponentState host q _) as [p|].
      * exists (Some p), [latestComponentExplorerView
                            (fst (prepareForestForSerialization host
                                    (snapshotRoots host w) false
                                    (snapshotStart host w))) (Some p)].
        split; [done | by right].
      * exists None, []. split; [done | by left].
    + exists None, [latestComponentExplorerView
                      (fst (prepareForestForSerialization host
                              (snapshotRoots host w) false
                              (snapshotStart host w))) None].
      split; [done | by right].
  - by rewrite Hm.
  - by rewrite Hs.
  - destruct L as [_ _ _ _ (t & Ht & Ft)]. exists t. split; [|done].
    rewrite Ht. cbn. by rewrite <- app_assoc.
Qed.

Lemma snapshot_without_di_debug_apis_witness :
  let w := Sample.world (Sample.app false) in
  let w' := getLatestComponentExplorerViewCallback Sample.host None w in
  hasDiDebugAPIs Sample.host (hooks (callIndexForest Sample.host w)) = false
  /\ Forall Pathless (fst (snapshotForest Sample.host
                             (callIndexForest Sample.host w)))
  /\ idToInjector w' = idToInjector w.
Proof.
  cbn zeta. split; [reflexivity|].
  destruct (snapshot_without_di_debug_apis Sample.host None
              (Sample.world (Sample.app false)) eq_refl)
    as (P & _ & M & _).
  split; [exact P | exact M].
Defined.

(** ** Serialization with resolution paths *)

(** C5: serialized with resolution paths, every node of the forest yields its
    serializable node, in place, so that the output has as many roots as the
    forest and each node as many children as its live node; a node whose
    element has no injector, in the state serialization has reached at that
    node, gets the empty resolution path; otherwise every injector of the
    chain is handed to the host's serializer for its kind, those for which
    the serializer answers are kept in order and those for which it answers
    null are skipped, the rest of the chain being serialized all the same. *)
Theorem prepareForestForSerialization_projects (host : Host)
  (roots : list ComponentTreeNode) (w : World host) :
  let result := prepareForestForSerialization host roots true w in
  ForestProjects host (stateOf w) roots (fst result) (stateOf (snd result))
  /\ length (fst result) = length roots.
Proof.
  cbn zeta.
  pose proof (prepareForestForSerialization_forest host roots w) as F.
  split; [exact F|]. by eapply ForestProjects_length.
Qed.

(** On the sample application: the inner element has no injector and gets the
    empty path; the chain of the component's element is served without its
    nameless injector. *)
Example prepareForestForSerialization_sample :
  fst (prepareForestForSerialization Sample.host [Sample.appNode] true
         (Sample.world (Sample.app true)))
  = [mkSerNode "app-root" (Some (mkSerComponent "AppComponent" false 7)) []
       [mkSerNode "div" None [] [] (Some [])]
       (Some [mkSerializedInjector 2 "app-root" TElement;
              mkSerializedInjector 0 "R3Injector" TEnvironment])].
Proof. reflexivity. Qed.

(** ** Injector providers *)

(** C6: a getInjectorProviders request for an id that the registry does not
    hold emits nothing; otherwise it emits exactly one latestInjectorProviders
    event with the injector and its provider records, serialized in the
    environment form exactly when the injector's type is environment. *)
Theorem getInjectorProviders_emits (host : Host)
  (injector : SerializedInjector) (w : World host) :
  let w' := getInjectorProvidersCallback host injector w in
  match idToInjector w !! si_id injector with
  | None => emitted w' = emitted w
  | Some live =>
      exists environment : bool,
        (environment = true <-> si_type injector = TEnvironment)
        /\ emitted w'
           = emitted w ++
             [latestInjectorProviders injector
                (map (fun providerRecord =>
                        serializeProviderRecord host providerRecord environment)
                   (getInjectorProviders host live (hooks w)))]
  end.
Proof.
  cbn. unfold getInjectorProvidersCallback.
  destruct (idToInjector w !! si_id injector) as [live|]; [|done].
  destruct (si_type injector) eqn:T.
  - exists false. split; [split; discriminate | done].
  - exists true. by split.
Qed.

(** ** Readiness *)

Lemma subscribeToClientEvents_listeners (host : Host) (w : World host) :
  listeners (subscribeToClientEvents host w)
  = listeners w ++ commandBindings
    ++ (if ready host w then inspectorBindings else []).
Proof.
  unfold subscribeToClientEvents.
  change (ready host (on host "logProvider" CbLogProvider _))
    with (ready host w).
  destruct (ready host w); cbn; rewrite <- !app_assoc; reflexivity.
Qed.

(** C4, as amended: when one of the three readiness conditions is false at
    startup, the thirteen command handlers from shutdown to logProvider are
    bound all the same; what is left out is the inspector and highlight
    handlers and the subscription of the change notifier. *)
Theorem subscribeToClientEvents_not_ready (host : Host) (w : World host) :
  ready host w = false ->
  listeners (subscribeToClientEvents host w) = listeners w ++ commandBindings
  /\ changeDetectionDebounce (subscribeToClientEvents host w)
     = changeDetectionDebounce w
  /\ (forall binding,
         binding ∈ inspectorBindings ->
         binding.1 ∉ boundTopics host w ->
         binding.1 ∉ boundTopics host (subscribeToClientEvents host w)).
Proof.
  intros Hr. pose proof (subscribeToClientEvents_listeners host w) as Hl.
  rewrite Hr, app_nil_r in Hl. split; [done|]. split.
  - unfold subscribeToClientEvents.
    change (ready host (on host "logProvider" CbLogProvider _))
      with (ready host w).
    by rewrite Hr.
  - intros binding Hb Hn. unfold boundTopics in *. rewrite Hl, fmap_app.
    intros [H|H]%elem_of_app; [done|].
    revert H. cbn.
    repeat (apply elem_of_cons in Hb as [->|Hb]);
      try (by apply elem_of_nil in Hb); cbn;
      intros H; repeat (apply elem_of_cons in H as [H|H]; [discriminate H|]);
      by apply elem_of_nil in H.
Qed.

Lemma subscribeToClientEvents_not_ready_witness :
  ready Sample.host (Sample.world Sample.bare) = false
  /\ listeners (subscribeToClientEvents Sample.host (Sample.world Sample.bare))
     = commandBindings.
Proof.
  split; [reflexivity|].
  apply (subscribeToClientEvents_not_ready Sample.host
           (Sample.world Sample.bare)).
  reflexivity.
Defined.

(** C4, the claim as stated fails: with none of the readiness conditions met,
    getRoutes is bound after startup, and a getRoutes message is answered. *)
Lemma subscribeToClientEvents_binds_before_ready :
  let w := subscribeToClientEvents Sample.host (Sample.world Sample.bare) in
  ready Sample.host (Sample.world Sample.bare) = false
  /\ ~ onlyProbeAndShutdown w
  /\ emitted (snd (deliver Sample.host MsgGetRoutes w)) = [updateRouterTree []].
Proof.
  cbn zeta. split; [reflexivity|]. split; [|reflexivity].
  intros H. destruct (H "getRoutes") as [E|E]; [|discriminate E..].
  unfold boundTopics. apply list_elem_of_In. vm_compute. tauto.
Qed.

(** ** The change notifier *)

Lemma debounceTime_gaps (due : Z) (signals : list Z) :
  forall armed : option Z,
    gapsUnder due signals ->
    match armed, signals with
    | Some d, t :: _ => (t < d)%Z
    | _, _ => True
    end ->
    debounceTime due armed signals
    = match last signals with
      | Some final => [(final + due)%Z]
      | None =>
          match armed with
          | Some d => [d]
          | None => []
          end
      end.
Proof.
  induction signals as [|t r IH]; intros armed G A; [done|].
  destruct G as [G1 G2].
  assert (E : debounceTime due armed (t :: r)
              = debounceTime due (Some (t + due)%Z) r).
  { cbn. destruct armed as [d|]; [|done].
    destruct (Z.leb_spec d t); [lia | done]. }
  rewrite E, (IH _ G2).
  - destruct r as [|t' r]; [done|]. rewrite last_cons_cons.
    destruct (last (t' :: r)) eqn:La; [done|].
    by apply last_None in La.
  - destruct r as [|t' r]; [done | lia].
Qed.

(** C7: once the application is ready the change notifier is subscribed with
    a window of 250 ms.  For signals at 0, 50, 100 and 200 ms and silence
    after them exactly one componentTreeDirty is emitted, at 450 ms, and
    none before; and as long as signals keep coming less than 250 ms apart
    nothing is emitted before 250 ms have passed since the latest of them. *)
Theorem changeNotifier_debounces (host : Host) (w : World host) :
  ready host w = true ->
  let w' := subscribeToClientEvents host w in
  changeDetectionDebounce w' = Some 250%Z
  /\ (forall horizon,
         (450 <= horizon)%Z ->
         componentTreeDirtyAt w' [0; 50; 100; 200]%Z horizon
         = [(450%Z, componentTreeDirty)])
  /\ (forall horizon,
         (horizon < 450)%Z ->
         componentTreeDirtyAt w' [0; 50; 100; 200]%Z horizon = [])
  /\ (forall signals final horizon,
         gapsUnder 250 signals ->
         last signals = Some final ->
         (horizon < final + 250)%Z ->
         componentTreeDirtyAt w' signals horizon = []).
Proof.
  intros Hr. cbn zeta.
  assert (D : changeDetectionDebounce (subscribeToClientEvents host w)
              = Some 250%Z).
  { unfold subscribeToClientEvents.
    change (ready host (on host "logProvider" CbLogProvider _))
      with (ready host w).
    by rewrite Hr. }
  split; [done|]. unfold componentTreeDirtyAt. rewrite D.
  split; [|split].
  - intros horizon H.
    change (debounceTime 250 None [0; 50; 100; 200]%Z) with [450%Z].
    rewrite filter_cons_True by done. reflexivity.
  - intros horizon H.
    change (debounceTime 250 None [0; 50; 100; 200]%Z) with [450%Z].
    rewrite filter_cons_False by lia. reflexivity.
  - intros signals final horizon G L H.
    rewrite (debounceTime_gaps 250 signals None G I), L.
    rewrite filter_cons_False by lia. reflexivity.
Qed.

Lemma changeNotifier_debounces_witness :
  let w := subscribeToClientEvents Sample.host
             (Sample.world (Sample.app true)) in
  ready Sample.host (Sample.world (Sample.app true)) = true
  /\ componentTreeDirtyAt w [0; 50; 100; 200]%Z 1000
     = [(450%Z, componentTreeDirty)]
  /\ componentTreeDirtyAt w [0; 100; 300; 500; 700]%Z 949 = [].
Proof.
  cbn zeta. split; [reflexivity|].
  destruct (changeNotifier_debounces Sample.host
              (Sample.world (Sample.app true)) eq_refl) as (_ & A & _ & C).
  split.
  - apply A. lia.
  - apply (C [0; 100; 300; 500; 700]%Z 700%Z 949%Z).
    + cbn. lia.
    + reflexivity.
    + lia.
Defined.

(** ** Profiling *)

Section Profiling.

Variable host : Host.

Local Abbreviation World := (World host).

Lemma frames_while_recording (frames : list (ProfilerFrame host)) :
  forall (w : World) seen,
    capture w = Recording EmitProfilerChunk seen ->
    let w' := run host (map Frame frames) w in
    capture w' = Recording EmitProfilerChunk (seen ++ frames)
    /\ emitted w' = emitted w ++ map sendProfilerChunk frames
    /\ listeners w' = listeners w.
Proof.
  induction frames as [|f frames IH]; intros w seen C; cbn.
  - by rewrite !app_nil_r.
  - unfold profilerFrame. rewrite C. cbn.
    edestruct (IH (emit host (sendProfilerChunk f)
                     (setCapture host
                        (Recording EmitProfilerChunk (seen ++ [f])) w))
                 (seen ++ [f]) eq_refl) as (C' & E' & L').
    unfold run in C', E', L'. rewrite C', E', L'. cbn.
    by rewrite <- !app_assoc.
Qed.

Lemma deliver_startProfiling (w : World) (b : bool) :
  listeners w = commandBindings ++ (if b then inspectorBindings else []) ->
  deliver host MsgStartProfiling w = (Normal, startProfilingCallback host w).
Proof.
  intros L. unfold deliver. rewrite L. by destruct b.
Qed.

Lemma deliver_stopProfiling (w : World) (b : bool) :
  listeners w = commandBindings ++ (if b then inspectorBindings else []) ->
  deliver host MsgStopProfiling w = (Normal, stopProfilingCallback host w).
Proof.
  intros L. unfold deliver. rewrite L. by destruct b.
Qed.

End Profiling.

(** C8: on a bus freshly subscribed, with the capture idle, a session of
    startProfiling, any frames and stopProfiling emits one sendProfilerChunk
    per frame, each as its frame arrives, and then exactly one
    profilerResults; with three frames that is three chunks followed by the
    results.  A frame that arrives while the capture is idle emits nothing. *)
Theorem profiling_session (host : Host) (w0 : World host)
  (frames : list (ProfilerFrame host)) :
  listeners w0 = [] ->
  capture w0 = Idle ->
  let w := subscribeToClientEvents host w0 in
  let session fs :=
    Inbound MsgStartProfiling :: map Frame fs ++ [Inbound MsgStopProfiling] in
  emitted (run host (session frames) w)
  = emitted w0 ++ map sendProfilerChunk frames
    ++ [profilerResults (flushFrames host frames)]
  /\ (forall f1 f2 f3,
         emitted (run host (session [f1; f2; f3]) w)
         = emitted w0 ++
           [sendProfilerChunk f1; sendProfilerChunk f2; sendProfilerChunk f3;
            profilerResults (flushFrames host [f1; f2; f3])])
  /\ (forall f,
         emitted (run host (Inbound MsgStartProfiling :: map Frame (frames ++ [f])) w)
         = emitted (run host (Inbound MsgStartProfiling :: map Frame frames) w)
           ++ [sendProfilerChunk f])
  /\ (forall f, emitted (step host (Frame f) w) = emitted w).
Proof.
  intros L0 C0. cbn zeta.
  set (w := subscribeToClientEvents host w0).
  assert (L : listeners w
              = commandBindings
                ++ (if ready host w0 then inspectorBindings else [])).
  { subst w. by rewrite subscribeToClientEvents_listeners, L0. }
  assert (C : capture w = Idle).
  { subst w. unfold subscribeToClientEvents.
    change (ready host (on host "logProvider" CbLogProvider _))
      with (ready host w0).
    by destruct (ready host w0). }
  assert (E : emitted w = emitted w0).
  { subst w. unfold subscribeToClientEvents.
    change (ready host (on host "logProvider" CbLogProvider _))
      with (ready host w0).
    by destruct (ready host w0). }
  assert (S : forall fs,
             let w1 := run host (Inbound MsgStartProfiling :: map Frame fs) w in
             capture w1 = Recording EmitProfilerChunk fs
             /\ emitted w1 = emitted w0 ++ map sendProfilerChunk fs
             /\ listeners w1 = listeners w).
  { intros fs. cbn zeta. unfold run. cbn [foldl step].
    rewrite (deliver_startProfiling host w _ L). cbn [snd].
    unfold startProfilingCallback, startProfiling. rewrite C.
    destruct (frames_while_recording host fs
                (setCapture host (Recording EmitProfilerChunk []) w) []
                eq_refl) as (C1 & E1 & L1).
    unfold run in C1, E1, L1. rewrite C1, E1, L1. cbn. by rewrite E. }
  assert (T : forall fs,
             emitted (run host
                        (Inbound MsgStartProfiling :: map Frame fs
                         ++ [Inbound MsgStopProfiling]) w)
             = emitted w0 ++ map sendProfilerChunk fs
               ++ [profilerResults (flushFrames host fs)]).
  { intros fs. destruct (S fs) as (C1 & E1 & L1).
    change (Inbound MsgStartProfiling :: map Frame fs
            ++ [Inbound MsgStopProfiling])
      with ((Inbound MsgStartProfiling :: map Frame fs)
            ++ [Inbound MsgStopProfiling]).
    unfold run at 1. rewrite foldl_app.
    fold (run host (Inbound MsgStartProfiling :: map Frame fs) w).
    remember (run host (Inbound MsgStartProfiling :: map Frame fs) w)
      as w1 eqn:Hw1.
    clear Hw1. cbn [foldl step].
    rewrite (deliver_stopProfiling host w1 (ready host w0))
      by (by rewrite L1).
    cbn [snd]. unfold stopProfilingCallback, stopProfiling. rewrite C1.
    cbn. rewrite E1. by rewrite <- app_assoc. }
  split; [apply T|]. split; [|split].
  - intros f1 f2 f3. apply (T [f1; f2; f3]).
  - intros f. destruct (S (frames ++ [f])) as (_ & -> & _).
    destruct (S frames) as (_ & -> & _).
    by rewrite map_app, <- app_assoc.
  - intros f. cbn. unfold profilerFrame. by rewrite C.
Qed.

Lemma profiling_session_witness :
  let frame : nat -> Input Sample.host := @Frame Sample.host in
  let chunk : nat -> Event Sample.host := @sendProfilerChunk Sample.host in
  let w0 := Sample.world (Sample.app true) in
  listeners w0 = []
  /\ capture w0 = Idle
  /\ emitted (run Sample.host
                (Inbound MsgStartProfiling :: map frame [3; 5; 8]
                 ++ [Inbound MsgStopProfiling])
                (subscribeToClientEvents Sample.host w0))
     = [] ++ map chunk [3; 5; 8]
       ++ [profilerResults (flushFrames Sample.host [3; 5; 8])]
  /\ emitted (run Sample.host
                [Inbound MsgStartProfiling; frame 3; frame 5; frame 8;
                 Inbound MsgStopProfiling; frame 13]
                (subscribeToClientEvents Sample.host w0))
     = [chunk 3; chunk 5; chunk 8;
        profilerResults (16 : ProfilerFrame Sample.host)].
Proof.
  cbn zeta. split; [reflexivity|]. split; [reflexivity|].
  split; [|reflexivity].
  destruct (profiling_session Sample.host (Sample.world (Sample.app true))
              [3; 5; 8] eq_refl eq_refl) as [A _].
  exact A.
Defined.

(** ** Logging a provider *)

(** C9, as amended: for a logProvider request whose provider record carries
    a list of indices: when the registry does not hold the injector's id the
    handler logs nothing; when it does, the handler logs the group header,
    the injector and the list of all referenced provider records, whatever
    the indices; and when the first listed index refers to a provider record
    of the injector it then logs the resolved value of one token only, that
    of the first listed provider, and closes the group.  It emits nothing. *)
Theorem logProvider_multi (host : Host)
  (serializedInjector : SerializedInjector)
  (serializedProvider : SerializedProviderRecord) (w : World host)
  (indices : list nat) :
  sp_index serializedProvider = Some (Multi indices) ->
  let result := logProvider host serializedInjector serializedProvider w in
  emitted (snd result) = emitted w
  /\ match idToInjector w !! si_id serializedInjector with
     | None => result = (Normal, w)
     | Some injector =>
         let providerRecords := getInjectorProviders host injector (hooks w) in
         let providers := map (fun index => providerRecords !! index) indices in
         exists entries,
           console (snd result)
           = console w ++
             [ConsoleGroup (si_name serializedInjector)
                (groupColour (si_type serializedInjector));
              ConsoleLogInjector injector;
              ConsoleLogProviders providers] ++ entries
           /\ match providers with
              | Some provider :: _ =>
                  fst result = Normal
                  /\ entries
                     = [ConsoleLogValue
                          (injectorGet host injector (token host provider)
                             (hooks w));
                        ConsoleGroupEnd]
              | _ => entries = []
              end
     end.
Proof.
  intros Hx. cbn zeta. unfold logProvider. rewrite Hx.
  destruct (idToInjector w !! si_id serializedInjector) as [injector|];
    [|done].
  cbn zeta.
  destruct (map (fun index => getInjectorProviders host injector (hooks w)
                              !! index) indices) as [|[p|] ps] eqn:P; cbn.
  - split; [done|]. exists []. rewrite <- !app_assoc. by cbn.
  - split; [done|]. eexists. rewrite <- !app_assoc. cbn.
    split; [reflexivity | done].
  - split; [done|]. exists []. rewrite <- !app_assoc. by cbn.
Qed.

Lemma logProvider_multi_witness :
  let injector := mkSerializedInjector 0 "R3Injector" TEnvironment in
  let record := mkSerializedProviderRecord "APP_INITIALIZER" (Some (Multi [1; 0])) in
  let w : World Sample.host :=
    mkWorld (Sample.app true : hostSt Sample.host)
      {[0 := Sample.rootInjector]} ∅ [] false None Idle [] [] [] [] in
  sp_index record = Some (Multi [1; 0])
  /\ idToInjector w !! si_id injector = Some Sample.rootInjector
  /\ fst (logProvider Sample.host injector record w) = Normal
  /\ console (snd (logProvider Sample.host injector record w))
     = [ConsoleGroup "R3Injector" "#f05057";
        @ConsoleLogInjector Sample.host Sample.rootInjector;
        @ConsoleLogProviders Sample.host
          [Some ("APP_INITIALIZER", [1; 2]); Some ("Router", [0])];
        @ConsoleLogValue Sample.host "APP_INITIALIZER";
        ConsoleGroupEnd]
  /\ emitted (snd (logProvider Sample.host injector record w)) = [].
Proof.
  cbn zeta.
  pose proof (logProvider_multi Sample.host
                (mkSerializedInjector 0 "R3Injector" TEnvironment)
                (mkSerializedProviderRecord "APP_INITIALIZER"
                   (Some (Multi [1; 0])))
                (mkWorld (Sample.app true : hostSt Sample.host)
                   {[0 := Sample.rootInjector]} ∅ [] false None Idle [] [] []
                   [])
                [1; 0] eq_refl) as [E H].
  split; [reflexivity|]. split; [reflexivity|].
  split; [reflexivity|]. split; [reflexivity|]. exact E.
Defined.

(** C9, the claim as stated fails: when the registry does not hold the id of
    the injector, a request with a list of indices logs nothing at all. *)
Lemma logProvider_unknown_injector_logs_nothing :
  let injector := mkSerializedInjector 0 "R3Injector" TEnvironment in
  let record := mkSerializedProviderRecord "APP_INITIALIZER" (Some (Multi [1; 0])) in
  let result :=
    logProvider Sample.host injector record (Sample.world (Sample.app true)) in
  console (snd result) = []
  /\ ~ (exists providers,
          @ConsoleLogProviders Sample.host providers ∈ console (snd result)).
Proof.
  cbn zeta.
  assert (E : console
                (snd (logProvider Sample.host
                        (mkSerializedInjector 0 "R3Injector" TEnvironment)
                        (mkSerializedProviderRecord "APP_INITIALIZER"
                           (Some (Multi [1; 0])))
                        (Sample.world (Sample.app true)))) = [])
    by reflexivity.
  split; [exact E|]. intros (providers & H). rewrite E in H.
  by apply elem_of_nil in H.
Qed.

(** ** Nested properties *)

(** As soon as a segment other than the last reads as [undefined], the walk
    logs the error and throws on the next segment. *)
Lemma walkPropPath_missing_inner (host : Host) (propPath : list string)
  (node : ComponentTreeNode) (prop next : string) (rest : list string)
  (data : JsValue) (w : World host) :
  getProp host data prop = inr JUndefined ->
  walkPropPath host propPath node (prop :: next :: rest) data w
  = (inl (TypeError "Cannot read properties of undefined"),
     consoleWrite host (ConsoleError propPath node) w).
Proof. intros H. cbn. by rewrite H. Qed.

(** C2, where the code departs from the claim: the component of the sample
    application has no property [settings]; with the path settings, theme the
    handler logs the error, throws on reading [theme] of [undefined], and
    emits no nestedProperties event. *)
Theorem getNestedProperties_missing_inner_segment :
  let position := mkDirectivePosition [0] None in
  let result :=
    getNestedPropertiesCallback Sample.host position ["settings"; "theme"]
      (Sample.world (Sample.app true)) in
  getProp Sample.host (inst_state Sample.appInstance) "settings"
  = inr JUndefined
  /\ fst result = Throws (TypeError "Cannot read properties of undefined")
  /\ emitted (snd result) = []
  /\ console (snd result)
     = [ConsoleError ["settings"; "theme"] Sample.appNode].
Proof. cbn zeta. repeat split; reflexivity. Qed.

(** When the missing segment is the last one the walk ends on [undefined]
    and the event carries what the state serializer makes of it. *)
Lemma getNestedProperties_missing_last_segment (host : Host)
  (position : DirectivePosition) (w : World host) (node : ComponentTreeNode)
  (instance : LiveInstance) (prop : string) :
  queryDirectiveForest host (pos_element position)
    (fst (getIndexedDirectiveForest host (hooks w))) = Some node ->
  match pos_directive position with
  | None => comp_instance <$> component node
  | Some i => dir_instance <$> directives node !! i
  end = Some instance ->
  getProp host (inst_state instance) prop = inr JUndefined ->
  let result := getNestedPropertiesCallback host position [prop] w in
  fst result = Normal
  /\ emitted (snd result)
     = emitted w ++
       [nestedProperties position (serializeDirectiveState host JUndefined)
          [prop]].
Proof.
  intros Hq Hc Hp. cbn zeta. unfold getNestedPropertiesCallback.
  destruct (getIndexedDirectiveForest host (hooks w)) as [forest h].
  cbn in Hq. rewrite Hq, Hc. cbn. rewrite Hp. cbn. done.
Qed.

(** * Further properties *)

(** ** The sweep *)

(** After the sweep an id maps to what it mapped to before if it was seen,
    and to nothing otherwise. *)
Theorem sweep_lookup (host : Host) (seen : gset nat)
  (m : gmap nat (Injector host)) (k : nat) :
  sweep host seen m !! k = if decide (k ∈ seen) then m !! k else None.
Proof.
  rewrite sweep_filter, map_lookup_filter.
  destruct (m !! k) as [x|]; cbn.
  - destruct (decide (k ∈ seen)).
    + by rewrite option_guard_True.
    + by rewrite option_guard_False.
  - by destruct (decide (k ∈ seen)).
Qed.

(** With nothing seen the sweep empties the registry; with every key seen it
    changes nothing; and sweeping twice is sweeping once. *)
Theorem sweep_edges (host : Host) (seen : gset nat)
  (m : gmap nat (Injector host)) :
  sweep host ∅ m = ∅
  /\ (dom m ⊆ seen -> sweep host seen m = m)
  /\ sweep host seen (sweep host seen m) = sweep host seen m.
Proof.
  split; [|split].
  - apply map_eq. intros k. rewrite sweep_filter, map_lookup_filter.
    rewrite lookup_empty. destruct (m !! k); cbn; [|done].
    by rewrite option_guard_False by set_solver.
  - intros Hd. apply map_eq. intros k.
    rewrite sweep_filter, map_lookup_filter.
    destruct (m !! k) as [x|] eqn:E; cbn; [|done].
    rewrite option_guard_True; [done|].
    apply Hd, elem_of_dom. by exists x.
  - apply map_eq. intros k. rewrite !sweep_filter, !map_lookup_filter.
    destruct (m !! k) as [x|]; cbn; [|done].
    destruct (decide (k ∈ seen)).
    + rewrite option_guard_True by done. cbn.
      by rewrite option_guard_True.
    + by rewrite option_guard_False.
Qed.

(** A snapshot taken with the DI debug APIs forgets the injectors it did not
    see: a getInjectorProviders request that follows it for such an id emits
    nothing; an id it saw keeps its injector. *)
Theorem snapshot_forgets_unseen (host : Host) (query : option (Query host))
  (injector : SerializedInjector) (w : World host) :
  hasDiDebugAPIs host (hooks (callIndexForest host w)) = true ->
  let ws := serialized host w in
  let w' := getLatestComponentExplorerViewCallback host query w in
  (si_id injector ∉ injectorsSeen ws ->
   emitted (getInjectorProvidersCallback host injector w') = emitted w')
  /\ (si_id injector ∈ injectorsSeen ws ->
      idToInjector w' !! si_id injector = idToInjector ws !! si_id injector).
Proof.
  intros Hdi. cbn zeta.
  destruct (getLatestComponentExplorerViewCallback_after host query w)
    as (_ & Hm & _).
  rewrite (snapshotForest_with host _ Hdi) in Hm. cbn [snd] in Hm.
  fold (snapshotRoots host w) in Hm. fold (snapshotStart host w) in Hm.
  fold (serialized host w) in Hm. cbn in Hm.
  split; intros Hs.
  - unfold getInjectorProvidersCallback. rewrite Hm, sweep_filter.
    rewrite map_lookup_filter.
    destruct (idToInjector (serialized host w) !! si_id injector); cbn;
      [|done].
    by rewrite option_guard_False.
  - rewrite Hm, sweep_filter, map_lookup_filter.
    destruct (idToInjector (serialized host w) !! si_id injector); cbn;
      [|done].
    by rewrite option_guard_True.
Qed.

Lemma snapshot_forgets_unseen_witness :
  let stale := mkSerializedInjector 9 "gone" TEnvironment in
  let w : World Sample.host :=
    mkWorld (Sample.app true : hostSt Sample.host)
      {[9 := Sample.rootInjector]} ∅ [] false None Idle [] [] [] [] in
  let w' := getLatestComponentExplorerViewCallback Sample.host None w in
  hasDiDebugAPIs Sample.host (hooks (callIndexForest Sample.host w)) = true
  /\ (si_id stale ∉ injectorsSeen (serialized Sample.host w))
  /\ idToInjector w !! 9 = Some Sample.rootInjector
  /\ emitted (getInjectorProvidersCallback Sample.host stale w') = emitted w'.
Proof.
  cbn zeta.
  assert (S : 9 ∉ injectorsSeen
                    (serialized Sample.host
                       (mkWorld (Sample.app true : hostSt Sample.host)
                          {[9 := Sample.rootInjector]} ∅ [] false None Idle
                          [] [] [] []))).
  { apply (bool_decide_unpack _). reflexivity. }
  split; [reflexivity|]. split; [exact S|]. split; [reflexivity|].
  exact (proj1 (snapshot_forgets_unseen Sample.host None
                  (mkSerializedInjector 9 "gone" TEnvironment)
                  (mkWorld (Sample.app true : hostSt Sample.host)
                     {[9 := Sample.rootInjector]} ∅ [] false None Idle
                     [] [] [] [])
                  eq_refl) S).
Defined.

(** A snapshot of an empty forest, taken with the DI debug APIs while no
    injector is marked seen, shows an empty forest and leaves the registry
    empty. *)
Theorem snapshot_of_empty_forest (host : Host) (w : World host) :
  hasDiDebugAPIs host (hooks (callIndexForest host w)) = true ->
  snapshotRoots host w = [] ->
  injectorsSeen w = ∅ ->
  let w' := getLatestComponentExplorerViewCallback host None w in
  emitted w' = emitted w ++ [latestComponentExplorerView [] None]
  /\ idToInjector w' = ∅
  /\ injectorsSeen w' = ∅.
Proof.
  intros Hdi Hr Hs. cbn zeta.
  pose proof (getLatestComponentExplorerViewCallback_emitted host None w)
    as He. cbn zeta in He.
  destruct (getLatestComponentExplorerViewCallback_after host None w)
    as (_ & Hm & Hn).
  rewrite (snapshotForest_with host _ Hdi) in He, Hm, Hn.
  cbn [fst snd] in He, Hm, Hn.
  fold (snapshotRoots host w) in He, Hm, Hn.
  rewrite Hr in He, Hm, Hn. cbn in He, Hm, Hn.
  split; [done|]. split; [|done].
  rewrite Hm, Hs, sweep_filter. apply map_eq. intros k.
  rewrite map_lookup_filter, lookup_empty.
  destruct (idToInjector _ !! k); cbn; [|done].
  by rewrite option_guard_False by set_solver.
Qed.

Lemma snapshot_of_empty_forest_witness :
  let w : World Sample.host :=
    mkWorld (Sample.mkSt [] [] true (Some "17.0.0") true true true
             : hostSt Sample.host)
      {[4 := Sample.rootInjector]} ∅ [] false None Idle [] [] [] [] in
  hasDiDebugAPIs Sample.host (hooks (callIndexForest Sample.host w)) = true
  /\ snapshotRoots Sample.host w = []
  /\ injectorsSeen w = ∅
  /\ idToInjector (getLatestComponentExplorerViewCallback Sample.host None w)
     = ∅.
Proof.
  cbn zeta. split; [reflexivity|]. split; [reflexivity|].
  split; [reflexivity|].
  exact (proj1 (proj2
           (snapshot_of_empty_forest Sample.host
              (mkWorld (Sample.mkSt [] [] true (Some "17.0.0") true true true
                        : hostSt Sample.host)
                 {[4 := Sample.rootInjector]} ∅ [] false None Idle
                 [] [] [] [])
              eq_refl eq_refl eq_refl))).
Defined.

(** ** Bindings and routing *)

(** When the three readiness conditions hold at startup, the inspector's four
    handlers are bound after the thirteen command handlers, and the change
    notifier is subscribed with a window of 250 ms; nothing is emitted and
    the registry is not touched. *)
Theorem subscribeToClientEvents_ready (host : Host) (w : World host) :
  ready host w = true ->
  let w' := subscribeToClientEvents host w in
  listeners w' = listeners w ++ commandBindings ++ inspectorBindings
  /\ changeDetectionDebounce w' = Some 250%Z
  /\ emitted w' = emitted w
  /\ idToInjector w' = idToInjector w.
Proof.
  intros Hr. cbn zeta.
  pose proof (subscribeToClientEvents_listeners host w) as Hl.
  rewrite Hr in Hl. split; [done|].
  unfold subscribeToClientEvents.
  change (ready host (on host "logProvider" CbLogProvider _))
    with (ready host w).
  by rewrite Hr.
Qed.

Lemma subscribeToClientEvents_ready_witness :
  let w := Sample.world (Sample.app true) in
  ready Sample.host w = true
  /\ listeners (subscribeToClientEvents Sample.host w)
     = [] ++ commandBindings ++ inspectorBindings.
Proof.
  cbn zeta. split; [reflexivity|].
  exact (proj1 (subscribeToClientEvents_ready Sample.host
                  (Sample.world (Sample.app true)) eq_refl)).
Defined.

(** On a bus without listeners, startup binds no topic twice, whether or not
    the application is ready. *)
Theorem subscribeToClientEvents_topics_distinct (host : Host)
  (w : World host) :
  listeners w = [] ->
  NoDup (boundTopics host (subscribeToClientEvents host w)).
Proof.
  intros L. unfold boundTopics.
  rewrite subscribeToClientEvents_listeners, L.
  destruct (ready host w); apply (bool_decide_unpack _); vm_compute; exact I.
Qed.

Lemma subscribeToClientEvents_topics_distinct_witness :
  listeners (Sample.world Sample.bare) = []
  /\ NoDup (boundTopics Sample.host
              (subscribeToClientEvents Sample.host (Sample.world Sample.bare))).
Proof.
  split; [reflexivity|].
  exact (subscribeToClientEvents_topics_distinct Sample.host
           (Sample.world Sample.bare) eq_refl).
Defined.

(** Listeners bound to other topics do not matter to a delivery. *)
Lemma notify_filter (host : Host) (ls : list (string * Callback))
  (m : Message host) :
  forall w : World host,
    notify host ls m w
    = notify host (filter (fun b => b.1 = topicOf host m) ls) m w.
Proof.
  induction ls as [|[topic cb] ls IH]; intros w; [done|].
  destruct (decide (topic = topicOf host m)) as [E|E].
  - rewrite filter_cons_True by done. cbn [notify].
    rewrite bool_decide_eq_true_2 by done.
    destruct (runCallback host cb m w) as [[|e] w1]; [apply IH | done].
  - rewrite filter_cons_False by done. cbn [notify].
    rewrite bool_decide_eq_false_2 by done. apply IH.
Qed.

(** After startup on a bus without listeners, every message reaches the one
    callback bound to its topic and no other; the four inspector messages
    reach theirs only if the application was ready at startup, and are
    dropped otherwise. *)
Theorem deliver_routes (host : Host) (w0 : World host) (m : Message host)
  (w : World host) :
  listeners w = listeners (subscribeToClientEvents host w0) ->
  listeners w0 = [] ->
  deliver host m w
  = if forInspector m && negb (ready host w0) then (Normal, w)
    else runCallback host (callbackOf m) m w.
Proof.
  intros Lw L0. unfold deliver.
  rewrite Lw, subscribeToClientEvents_listeners, L0.
  unfold commandBindings, inspectorBindings.
  destruct (ready host w0), m;
    cbn [app forInspector negb andb callbackOf];
    rewrite notify_filter;
    match goal with
    | |- notify host ?l _ _ = _ =>
        let l' := eval vm_compute in l in change l with l'
    end;
    cbn [notify topicOf];
    lazymatch goal with
    | |- (Normal, ?v) = (Normal, ?v) => reflexivity
    | |- _ =>
        rewrite bool_decide_eq_true_2 by reflexivity;
        match goal with
        | |- context [runCallback ?h ?c ?msg ?v] =>
            destruct (runCallback h c msg v) as [[|?] ?]; reflexivity
        end
    end.
Qed.

Lemma deliver_routes_witness :
  let w := subscribeToClientEvents Sample.host (Sample.world Sample.bare) in
  listeners (Sample.world Sample.bare) = []
  /\ deliver Sample.host MsgInspectorStart w = (Normal, w)
  /\ deliver Sample.host MsgGetRoutes w
     = (Normal, getRoutesCallback Sample.host w).
Proof.
  cbn zeta. split; [reflexivity|]. split.
  - exact (deliver_routes Sample.host (Sample.world Sample.bare)
             MsgInspectorStart _ eq_refl eq_refl).
  - exact (deliver_routes Sample.host (Sample.world Sample.bare)
             MsgGetRoutes _ eq_refl eq_refl).
Defined.

(** ** The capability probe *)

(** A probe made while the framework's version cannot be detected (absent,
    or the empty string) emits nothing and schedules one retry of itself in
    500 ms; once the version is detectable it emits exactly one
    ngAvailability event carrying that version and schedules nothing,
    whatever the other readiness conditions; the hooks are set up only if
    all three conditions hold. *)
Theorem checkForAngular_probe (host : Host) (w : World host) :
  let w' := checkForAngular host w in
  let detected :=
    match getAngularVersion host (hooks w) with
    | Some version => if bool_decide (version = "") then None else Some version
    | None => None
    end in
  match detected with
  | None =>
      emitted w' = emitted w
      /\ timeouts w' = timeouts w ++ [(500%Z, CbCheckForAngular)]
      /\ hooks w' = hooks w
  | Some version =>
      emitted w'
      = emitted w
        ++ [ngAvailability version (appIsAngularInDevMode host (hooks w'))
              (appIsAngularIvy host (hooks w))]
      /\ timeouts w' = timeouts w
      /\ (ready host w = false -> hooks w' = hooks w)
  end
  /\ idToInjector w' = idToInjector w
  /\ listeners w' = listeners w.
Proof.
  cbn zeta. unfold checkForAngular, ready.
  destruct (getAngularVersion host (hooks w)) as [v|]; [|done].
  destruct (bool_decide (v = "")); [done|].
  destruct (appIsAngularIvy host (hooks w)) eqn:Ivy,
    (appIsAngularInDevMode host (hooks w)) eqn:Dev,
    (appIsSupportedAngularVersion host (hooks w)) eqn:Sup;
    cbn; repeat split; done.
Qed.

(** On the sample host: a page whose version attribute is empty is probed
    again in 500 ms and told nothing; one with a version is answered once. *)
Example checkForAngular_sample :
  let blank := Sample.mkSt [] [] false (Some "") true true true in
  let w := checkForAngular Sample.host (Sample.world blank) in
  emitted w = []
  /\ timeouts w = [(500%Z, CbCheckForAngular)]
  /\ emitted (checkForAngular Sample.host (Sample.world (Sample.app true)))
     = [@ngAvailability Sample.host "17.0.0" true true].
Proof. cbn zeta. repeat split; reflexivity. Qed.

(** ** Nested properties, further *)

(** A getNestedProperties request whose position finds no node, or finds a
    node without the component or directive it names, completes with exactly
    one nestedProperties event whose properties are empty and whose position
    and path are those of the request; nothing is logged. *)
Theorem getNestedProperties_missing_target (host : Host)
  (position : DirectivePosition) (propPath : list string) (w : World host) :
  let forest := fst (getIndexedDirectiveForest host (hooks w)) in
  match queryDirectiveForest host (pos_element position) forest with
  | None => True
  | Some node => currentOf position node = None
  end ->
  let result := getNestedPropertiesCallback host position propPath w in
  fst result = Normal
  /\ emitted (snd result) = emitted w ++ [nestedProperties position [] propPath]
  /\ console (snd result) = console w.
Proof.
  cbn zeta. unfold getNestedPropertiesCallback, currentOf.
  destruct (getIndexedDirectiveForest host (hooks w)) as [forest h]. cbn [fst].
  destruct (queryDirectiveForest host (pos_element position) forest)
    as [node|]; [|done].
  intros ->. done.
Qed.

Lemma getNestedProperties_missing_target_witness :
  let position := mkDirectivePosition [0] (Some 3) in
  let w := Sample.world (Sample.app true) in
  let result :=
    getNestedPropertiesCallback Sample.host position ["title"] w in
  currentOf position Sample.appNode = None
  /\ fst result = Normal
  /\ emitted (snd result) = [] ++ [nestedProperties position [] ["title"]].
Proof.
  cbn zeta. split; [reflexivity|].
  destruct (getNestedProperties_missing_target Sample.host
              (mkDirectivePosition [0] (Some 3)) ["title"]
              (Sample.world (Sample.app true)) eq_refl) as (A & B & _).
  split; [exact A | exact B].
Defined.

Lemma walkPropPath_spec (host : Host) (propPath : list string)
  (node : ComponentTreeNode) (rest : list string) (data : JsValue)
  (w : World host) :
  let result := walkPropPath host propPath node rest data w in
  fst result = readPath host rest data
  /\ console (snd result)
     = console w
       ++ replicate (falsyReads host rest data) (ConsoleError propPath node)
  /\ emitted (snd result) = emitted w.
Proof.
  cbn zeta. revert data w.
  induction rest as [|prop rest IH]; intros data w; cbn.
  - by rewrite app_nil_r.
  - destruct (getProp host data prop) as [e|data']; cbn.
    + by rewrite app_nil_r.
    + destruct (IH data'
                  (if falsy data'
                   then consoleWrite host (ConsoleError propPath node) w
                   else w)) as (R & C & E).
      rewrite R, C, E. split; [done|].
      destruct (falsy data'); cbn; [|done].
      by rewrite <- app_assoc.
Qed.




(** When the position finds an instance, the request completes with exactly
    one nestedProperties event carrying the serialized value at the end of
    the path, or throws what reading the path throws and emits nothing. *)
Theorem getNestedProperties_resolved (host : Host)
  (position : DirectivePosition) (propPath : list string) (w : World host)
  (node : ComponentTreeNode) (instance : LiveInstance) :
  queryDirectiveForest host (pos_element position)
    (fst (getIndexedDirectiveForest host (hooks w))) = Some node ->
  currentOf position node = Some instance ->
  let result := getNestedPropertiesCallback host position propPath w in
  match readPath host propPath (inst_state instance) with
  | inr data =>
      fst result = Normal
      /\ emitted (snd result)
         = emitted w
           ++ [nestedProperties position (serializeDirectiveState host data)
                 propPath]
  | inl e => fst result = Throws e /\ emitted (snd result) = emitted w
  end.
Proof.
  intros Hq Hc. cbn zeta. unfold getNestedPropertiesCallback.
  unfold currentOf in Hc.
  destruct (getIndexedDirectiveForest host (hooks w)) as [forest h].
  cbn [fst] in Hq. rewrite Hq, Hc.
  destruct (walkPropPath_spec host propPath node propPath
              (inst_state instance) (setHooks host h w)) as (R & _ & E).
  destruct (walkPropPath host propPath node propPath (inst_state instance)
              (setHooks host h w)) as [r w1]. cbn in R, E. subst r.
  destruct (readPath host propPath (inst_state instance)); cbn;
    by rewrite E.
Qed.

Lemma getNestedProperties_resolved_witness :
  let position := mkDirectivePosition [0] None in
  let w := Sample.world Sample.shop in
  let result :=
    getNestedPropertiesCallback Sample.host position ["cart"] w in
  queryDirectiveForest Sample.host [0]
    (fst (getIndexedDirectiveForest Sample.host (hooks w)))
  = Some Sample.shopNode
  /\ currentOf position Sample.shopNode = Some Sample.shopInstance
  /\ fst result = Normal
  /\ emitted (snd result)
     = [] ++ [@nestedProperties Sample.host position
                [("items", JNum 3); ("coupon", JStr "")] ["cart"]].
Proof.
  cbn zeta. split; [reflexivity|]. split; [reflexivity|].
  exact (getNestedProperties_resolved Sample.host
           (mkDirectivePosition [0] None) ["cart"]
           (Sample.world Sample.shop) Sample.shopNode Sample.shopInstance
           eq_refl eq_refl).
Defined.

(** On the sample application: the length of the title is read from the
    string and nothing is logged; a further segment reads [undefined] from
    the number, which is logged once, and the event is still emitted. *)
Example getNestedProperties_through_a_string :
  let position := mkDirectivePosition [0] None in
  let w := Sample.world (Sample.app true) in
  let short :=
    getNestedPropertiesCallback Sample.host position ["title"; "length"] w in
  let long :=
    getNestedPropertiesCallback Sample.host position
      ["title"; "length"; "x"] w in
  readPath Sample.host ["title"; "length"] (inst_state Sample.appInstance)
  = inr (JNum 4)
  /\ fst short = Normal
  /\ console (snd short) = []
  /\ fst long = Normal
  /\ console (snd long)
     = [ConsoleError ["title"; "length"; "x"] Sample.appNode]
  /\ emitted (snd long)
     = [@nestedProperties Sample.host position [] ["title"; "length"; "x"]].
Proof. cbn zeta. repeat split; reflexivity. Qed.

(** ** Logging a provider, further *)

(** logProvider emits no event and leaves the hooks, the registry and the
    trace as they were, whatever it is asked. *)
Theorem logProvider_silent (host : Host)
  (serializedInjector : SerializedInjector)
  (serializedProvider : SerializedProviderRecord) (w : World host) :
  let w' := snd (logProvider host serializedInjector serializedProvider w) in
  emitted w' = emitted w
  /\ hooks w' = hooks w
  /\ idToInjector w' = idToInjector w
  /\ injectorsSeen w' = injectorsSeen w
  /\ trace w' = trace w.
Proof.
  cbn zeta. unfold logProvider.
  destruct (idToInjector w !! si_id serializedInjector) as [injector|];
    [|done].
  destruct (sp_index serializedProvider) as [[index|indices]|]; [| |done].
  - by destruct (getInjectorProviders host injector (hooks w) !! index).
  - destruct indices as [|i indices]; [done|]. cbn [map].
    by destruct (getInjectorProviders host injector (hooks w) !! i).
Qed.

(** For an injector the registry holds and a provider record with a single
    index that refers to one of the injector's provider records, the handler
    logs that record and the resolved value of its token between the opening
    and the closing of the console group. *)
Theorem logProvider_single (host : Host)
  (serializedInjector : SerializedInjector)
  (serializedProvider : SerializedProviderRecord) (w : World host)
  (injector : Injector host) (index : nat) (provider : ProviderRecord host) :
  idToInjector w !! si_id serializedInjector = Some injector ->
  sp_index serializedProvider = Some (Single index) ->
  getInjectorProviders host injector (hooks w) !! index = Some provider ->
  let result := logProvider host serializedInjector serializedProvider w in
  fst result = Normal
  /\ console (snd result)
     = console w ++
       [ConsoleGroup (si_name serializedInjector)
          (groupColour (si_type serializedInjector));
        ConsoleLogInjector injector;
        ConsoleLogProvider (Some provider);
        ConsoleLogValue
          (injectorGet host injector (token host provider) (hooks w));
        ConsoleGroupEnd].
Proof.
  intros Hi Hx Hp. cbn zeta. unfold logProvider. rewrite Hi, Hx.
  cbn zeta. rewrite Hp. cbn. by rewrite <- !app_assoc.
Qed.

Lemma logProvider_single_witness :
  let injector := mkSerializedInjector 0 "R3Injector" TEnvironment in
  let record := mkSerializedProviderRecord "Router" (Some (Single 0)) in
  let w : World Sample.host :=
    mkWorld (Sample.app true : hostSt Sample.host)
      {[0 := Sample.rootInjector]} ∅ [] false None Idle [] [] [] [] in
  idToInjector w !! si_id injector = Some Sample.rootInjector
  /\ sp_index record = Some (Single 0)
  /\ getInjectorProviders Sample.host Sample.rootInjector (hooks w) !! 0
     = Some ("Router", [0])
  /\ fst (logProvider Sample.host injector record w) = Normal.
Proof.
  cbn zeta. split; [reflexivity|]. split; [reflexivity|].
  split; [reflexivity|].
  refine (proj1
            (logProvider_single Sample.host
               (mkSerializedInjector 0 "R3Injector" TEnvironment)
               (mkSerializedProviderRecord "Router" (Some (Single 0)))
               (mkWorld (Sample.app true : hostSt Sample.host)
                  {[0 := Sample.rootInjector]} ∅ [] false None Idle [] [] []
                  [])
               Sample.rootInjector 0 ("Router", [0]) _ _ _)); reflexivity.
Defined.

(** For an injector the registry holds, the handler opens a console group and
    logs the injector; it completes, closing the group, exactly when the
    record's index, or the first of its indices, refers to one of the
    injector's provider records; otherwise it throws and the group stays
    open. *)
Theorem logProvider_group (host : Host)
  (serializedInjector : SerializedInjector)
  (serializedProvider : SerializedProviderRecord) (w : World host)
  (injector : Injector host) :
  idToInjector w !! si_id serializedInjector = Some injector ->
  let providerRecords := getInjectorProviders host injector (hooks w) in
  let referenced :=
    match sp_index serializedProvider with
    | Some (Single index) => providerRecords !! index
    | Some (Multi (index :: _)) => providerRecords !! index
    | _ => None
    end in
  let result := logProvider host serializedInjector serializedProvider w in
  exists entries,
    console (snd result)
    = console w
      ++ ConsoleGroup (si_name serializedInjector)
           (groupColour (si_type serializedInjector))
         :: ConsoleLogInjector injector :: entries
    /\ match referenced with
       | Some _ => fst result = Normal /\ last entries = Some ConsoleGroupEnd
       | None =>
           (exists e, fst result = Throws e)
           /\ Forall (fun c => c <> ConsoleGroupEnd) entries
       end.
Proof.
  intros Hi. cbn zeta. unfold logProvider. rewrite Hi.
  destruct (sp_index serializedProvider) as [[index|indices]|].
  - destruct (getInjectorProviders host injector (hooks w) !! index)
      as [p|] eqn:P; cbn.
    + eexists [_; _; _]. rewrite <- !app_assoc. cbn.
      split; [reflexivity | done].
    + eexists [_]. rewrite <- !app_assoc. cbn.
      split; [reflexivity|]. split; [eauto|]. by repeat constructor.
  - destruct indices as [|i indices]; cbn [map].
    + eexists [_]. cbn. rewrite <- !app_assoc. cbn.
      split; [reflexivity|]. split; [eauto|]. by repeat constructor.
    + destruct (getInjectorProviders host injector (hooks w) !! i)
        as [p|] eqn:P; cbn.
      * eexists [_; _; _]. rewrite <- !app_assoc. cbn.
        split; [reflexivity | done].
      * eexists [_]. rewrite <- !app_assoc. cbn.
        split; [reflexivity|]. split; [eauto|]. by repeat constructor.
  - exists []. cbn. rewrite <- !app_assoc. cbn.
    split; [reflexivity|]. split; [eauto | constructor].
Qed.

Lemma logProvider_group_witness :
  let injector := mkSerializedInjector 0 "R3Injector" TEnvironment in
  let record := mkSerializedProviderRecord "Missing" (Some (Single 7)) in
  let w : World Sample.host :=
    mkWorld (Sample.app true : hostSt Sample.host)
      {[0 := Sample.rootInjector]} ∅ [] false None Idle [] [] [] [] in
  idToInjector w !! si_id injector = Some Sample.rootInjector
  /\ fst (logProvider Sample.host injector record w)
     = Throws (TypeError "Cannot read properties of undefined")
  /\ exists entries,
       console (snd (logProvider Sample.host injector record w))
       = [] ++ ConsoleGroup "R3Injector" "#f05057"
         :: @ConsoleLogInjector Sample.host Sample.rootInjector :: entries
       /\ Forall (fun c => c <> ConsoleGroupEnd) entries.
Proof.
  cbn zeta.
  assert (Hi : idToInjector
                 (mkWorld (Sample.app true : hostSt Sample.host)
                    {[0 := Sample.rootInjector]} ∅ [] false None Idle [] []
                    [] [])
               !! si_id (mkSerializedInjector 0 "R3Injector" TEnvironment)
               = Some Sample.rootInjector) by reflexivity.
  split; [exact Hi|]. split; [reflexivity|].
  destruct (logProvider_group Sample.host
              (mkSerializedInjector 0 "R3Injector" TEnvironment)
              (mkSerializedProviderRecord "Missing" (Some (Single 7)))
              (mkWorld (Sample.app true : hostSt Sample.host)
                 {[0 := Sample.rootInjector]} ∅ [] false None Idle [] [] []
                 [])
              Sample.rootInjector Hi)
    as (entries & C & _ & F).
  exists entries. split; [exact C | exact F].
Defined.

(** ** The traversal of the forest *)

Section Traversal.

Variable host : Host.

Local Abbreviation World := (World host).

Lemma directiveLookups_app (t1 t2 : list (Action host)) :
  directiveLookups (t1 ++ t2) = directiveLookups t1 ++ directiveLookups t2.
Proof. apply omap_app. Qed.

Lemma directiveLookups_directive (l : list LiveInstance) :
  directiveLookups (map (@AGetDirectiveId host) l) = l.
Proof.
  unfold directiveLookups. induction l as [|i l IH]; cbn; [done|].
  by rewrite IH.
Qed.

Lemma directiveLookups_injector (p : list (Injector host)) :
  directiveLookups (map (@ASerializeInjector host) p) = [].
Proof. by induction p. Qed.

Lemma serializeComponent_trace comp (w : World) :
  trace (snd (serializeComponent host comp w))
  = trace w
    ++ map AGetDirectiveId
         match comp with
         | Some c => [comp_instance c]
         | None => []
         end.
Proof.
  destruct comp as [c|]; cbn; [|by rewrite app_nil_r].
  unfold callGetDirectiveId.
  by destruct (getDirectiveId host (comp_instance c) (hooks w)).
Qed.

Lemma serializeDirectives_trace dirs (w : World) :
  trace (snd (serializeDirectives host dirs w))
  = trace w ++ map AGetDirectiveId (map dir_instance dirs).
Proof.
  revert w. induction dirs as [|d dirs IH]; intros w; cbn;
    [by rewrite app_nil_r|].
  unfold callGetDirectiveId.
  destruct (getDirectiveId host (dir_instance d) (hooks w)) as [id h].
  specialize (IH (record host (AGetDirectiveId (dir_instance d))
                    (setHooks host h w))).
  destruct (serializeDirectives host dirs _) as [sr w2]. cbn in *.
  by rewrite IH, <- app_assoc.
Qed.

Lemma serializeInjectorWithId_trace inj (w : World) :
  trace (snd (serializeInjectorWithId host inj w))
  = trace w ++ [ASerializeInjector inj]
  /\ emitted (snd (serializeInjectorWithId host inj w)) = emitted w.
Proof.
  unfold serializeInjectorWithId.
  destruct (isElementInjector host inj).
  - by destruct (serializeElementInjectorWithId host inj (hooks w)
                   (idToInjector w, injectorsSeen w)) as [r [m s]].
  - by destruct (serializeEnvironmentInjectorWithId host inj (hooks w)
                   (idToInjector w, injectorsSeen w)) as [r [m s]].
Qed.

Lemma serializeResolutionPath_trace path (w : World) :
  trace (snd (serializeResolutionPath host path w))
  = trace w ++ map ASerializeInjector path
  /\ emitted (snd (serializeResolutionPath host path w)) = emitted w
  /\ length (fst (serializeResolutionPath host path w)) <= length path.
Proof.
  revert w. induction path as [|inj path IH]; intros w; cbn.
  - by rewrite app_nil_r.
  - destruct (serializeInjectorWithId_trace inj w) as [T E].
    destruct (serializeInjectorWithId host inj w) as [s w1].
    destruct (IH w1) as (T' & E' & L').
    destruct (serializeResolutionPath host path w1) as [sr w2]. cbn in *.
    destruct s; cbn; rewrite T', T, E', E, <- app_assoc;
      repeat split; try done; lia.
Qed.

Lemma resolutionPathOf_trace incl native (w : World) :
  exists t,
    trace (snd (resolutionPathOf host incl native w)) = trace w ++ t
    /\ directiveLookups t = []
    /\ (incl = false -> t = []).
Proof.
  unfold resolutionPathOf. destruct incl.
  - destruct (getInjectorFromElementNode host native (hooks w)) as [inj|].
    + destruct (serializeResolutionPath_trace
                  (getInjectorResolutionPath host inj (hooks w)) w)
        as (T & _ & _).
      destruct (serializeResolutionPath host _ w) as [p w1]. cbn in *.
      eexists. split; [exact T|]. split; [|done].
      apply directiveLookups_injector.
    + exists []. by rewrite app_nil_r.
  - exists []. by rewrite app_nil_r.
Qed.

Lemma serializeNode_trace incl node :
  forall w : World,
    exists t,
      trace (snd (serializeNode host incl node w)) = trace w ++ t
      /\ directiveLookups t = nodeInstances node
      /\ (incl = false -> t = map AGetDirectiveId (nodeInstances node)).
Proof.
  induction node as [el comp dirs kids native IH]
    using ComponentTreeNode_forest_ind.
  intros w. rewrite serializeNode_eq.
  pose proof (serializeComponent_trace comp w) as T1.
  destruct (serializeComponent host comp w) as [sc w1].
  pose proof (serializeDirectives_trace dirs w1) as T2.
  destruct (serializeDirectives host dirs w1) as [sd w2].
  assert (T3 : exists t,
             trace (snd (prepareForestForSerialization host kids incl w2))
             = trace w2 ++ t
             /\ directiveLookups t = flat_map nodeInstances kids
             /\ (incl = false ->
                 t = map AGetDirectiveId (flat_map nodeInstances kids))).
  { generalize w2. clear -IH.
    induction IH as [|n l Hn _ IHl]; intros v; cbn.
    - exists []. by rewrite app_nil_r.
    - destruct (Hn v) as (t & T & D & F).
      destruct (serializeNode host incl n v) as [sn wa].
      destruct (IHl wa) as (t' & T' & D' & F').
      destruct (prepareForestForSerialization host l incl wa) as [sr wb].
      cbn in *. exists (t ++ t'). split; [|split].
      + by rewrite T', T, app_assoc.
      + by rewrite directiveLookups_app, D, D'.
      + intros ->. by rewrite F, F', map_app. }
  destruct T3 as (t3 & T3 & D3 & F3).
  destruct (prepareForestForSerialization host kids incl w2) as [sk w3].
  destruct (resolutionPathOf_trace incl native w3) as (t4 & T4 & D4 & F4).
  destruct (resolutionPathOf host incl native w3) as [rp w4]. cbn in *.
  eexists. split; [|split].
  - rewrite T4, T3, T2, T1, <- !app_assoc. reflexivity.
  - rewrite !directiveLookups_app, !directiveLookups_directive, D3, D4.
    by rewrite app_nil_r.
  - intros ->. rewrite F3, F4 by done. by rewrite app_nil_r, !map_app.
Qed.

End Traversal.

(** The forest is traversed once, node by node: the directive ids are asked
    for once per component and per directive, a node's component first, then
    its directives, then its children; and without resolution paths nothing
    else is looked up. *)
Theorem prepareForestForSerialization_lookups (host : Host)
  (roots : list ComponentTreeNode) (includeResolutionPath : bool)
  (w : World host) :
  exists t,
    trace (snd (prepareForestForSerialization host roots
                  includeResolutionPath w))
    = trace w ++ t
    /\ directiveLookups t = forestInstances roots
    /\ (includeResolutionPath = false ->
        t = map AGetDirectiveId (forestInstances roots)).
Proof.
  unfold forestInstances. revert w.
  induction roots as [|n l IHl]; intros w; cbn.
  - exists []. by rewrite app_nil_r.
  - destruct (serializeNode_trace host includeResolutionPath n w)
      as (t & T & D & F).
    destruct (serializeNode host includeResolutionPath n w) as [sn wa].
    destruct (IHl wa) as (t' & T' & D' & F').
    destruct (prepareForestForSerialization host l includeResolutionPath wa)
      as [sr wb].
    cbn in *. exists (t ++ t'). split; [|split].
    + by rewrite T', T, app_assoc.
    + by rewrite directiveLookups_app, D, D'.
    + intros ->. by rewrite F, F', map_app.
Qed.

(** Every injector of a chain is put through its serializer exactly once and
    in the order of the chain, also after one of them failed to serialize;
    the serialized path is never longer than the chain, and nothing is
    emitted. *)
Theorem serializeResolutionPath_attempts (host : Host)
  (path : list (Injector host)) (w : World host) :
  let result := serializeResolutionPath host path w in
  trace (snd result) = trace w ++ map ASerializeInjector path
  /\ emitted (snd result) = emitted w
  /\ length (fst result) <= length path.
Proof. apply serializeResolutionPath_trace. Qed.

(** Whether or not resolution paths are asked for, the serialized forest has
    the shape of the live one: node for node the same element, the same
    component name and kind, the same directive names in the same order, and
    the same children. *)
Theorem prepareForestForSerialization_skeleton (host : Host)
  (roots : list ComponentTreeNode) (includeResolutionPath : bool)
  (w : World host) :
  map skeletonOfSerializable
    (fst (prepareForestForSerialization host roots includeResolutionPath w))
  = map skeletonOf roots.
Proof.
  assert (N : forall node (v : World host),
             skeletonOfSerializable
               (fst (serializeNode host includeResolutionPath node v))
             = skeletonOf node).
  { induction node as [el comp dirs kids native IH]
      using ComponentTreeNode_forest_ind.
    intros v. rewrite serializeNode_eq.
    assert (C : (fun c => (sc_name c, sc_isElement c))
                <$> fst (serializeComponent host comp v)
                = (fun c => (comp_name c, comp_isElement c)) <$> comp).
    { destruct comp as [c|]; cbn; [|done].
      by destruct (callGetDirectiveId host (comp_instance c) v). }
    destruct (serializeComponent host comp v) as [sc w1].
    pose proof (serializeDirectives_names host dirs w1) as D.
    destruct (serializeDirectives host dirs w1) as [sd w2].
    assert (K : map skeletonOfSerializable
                  (fst (prepareForestForSerialization host kids
                          includeResolutionPath w2))
                = map skeletonOf kids).
    { generalize w2. clear -IH.
      induction IH as [|n l Hn _ IHl]; intros u; cbn; [done|].
      specialize (Hn u).
      destruct (serializeNode host includeResolutionPath n u) as [sn wa].
      specialize (IHl wa).
      destruct (prepareForestForSerialization host l includeResolutionPath wa)
        as [sr wb].
      cbn in *. by rewrite Hn, IHl. }
    destruct (prepareForestForSerialization host kids includeResolutionPath w2)
      as [sk w3].
    destruct (resolutionPathOf host includeResolutionPath native w3)
      as [rp w4].
    change (map sd_name sd = map dir_name dirs) in D.
    cbn in *. by rewrite C, K, D. }
  revert w. induction roots as [|n l IHl]; intros w; cbn; [done|].
  specialize (N n w).
  destruct (serializeNode host includeResolutionPath n w) as [sn wa].
  specialize (IHl wa).
  destruct (prepareForestForSerialization host l includeResolutionPath wa)
    as [sr wb].
  cbn in *. by rewrite N, IHl.
Qed.

(** A snapshot taken with the DI debug APIs serializes the freshly indexed
    forest with resolution paths, starting from the state the indexing left:
    node for node the forest it shows stands for the indexed one, a node
    without injector with the empty path and every other node with the
    injectors of its chain that the host's serializers answer for; the
    registry this leaves is the one that is then swept. *)
Theorem snapshot_with_di_debug_apis (host : Host) (w : World host) :
  hasDiDebugAPIs host (hooks (callIndexForest host w)) = true ->
  ForestProjects host (stateOf (snapshotStart host w)) (snapshotRoots host w)
    (fst (snapshotForest host (callIndexForest host w)))
    (stateOf (serialized host w))
  /\ idToInjector (snd (snapshotForest host (callIndexForest host w)))
     = sweep host (injectorsSeen (serialized host w))
         (idToInjector (serialized host w)).
Proof.
  intros Hdi. rewrite (snapshotForest_with host _ Hdi). cbn [fst snd].
  fold (snapshotRoots host w). fold (snapshotStart host w).
  fold (serialized host w). split; [|reflexivity].
  apply prepareForestForSerialization_forest.
Qed.

Lemma snapshot_with_di_debug_apis_witness :
  let w := Sample.world (Sample.app true) in
  hasDiDebugAPIs Sample.host (hooks (callIndexForest Sample.host w)) = true
  /\ ForestProjects Sample.host (stateOf (snapshotStart Sample.host w))
       (snapshotRoots Sample.host w)
       (fst (snapshotForest Sample.host (callIndexForest Sample.host w)))
       (stateOf (serialized Sample.host w)).
Proof.
  cbn zeta. split; [reflexivity|].
  exact (proj1 (snapshot_with_di_debug_apis Sample.host
                  (Sample.world (Sample.app true)) eq_refl)).
Defined.
